(** * devicely: Spacelabs (SL 90217) and Empatica E4 readers

    A shallow embedding of [src/devicely/spacelabs.py] and
    [src/devicely/empatica.py], and the properties of the timestamp
    reconstruction, the join, the timeshift, the de-identification and
    the window/filter operations.

    Conventions of the embedding.
    - A [pd.Timestamp] is its [.value]: an integer number of nanoseconds
      since the epoch.  A [pd.Timedelta] is its [.value] too.  A [dt.date]
      is a number of days since the epoch.  The range limits of these
      types (64 bits of nanoseconds, years 1 to 9999) are not modelled:
      the integers are unbounded.
    - A Python exception is a value of [exn]; a method of a reader is a
      function from the reader to the reader it leaves behind and either
      a result or the exception it raised ([M]).  What a method has
      assigned before it raises stays assigned.
    - Floating point payloads (samples, blood pressure values) are never
      computed with by the operations modelled; they are kept abstract or
      as integers.  A missing value (NaN) is [None]. *)

From Stdlib Require Import ZArith List Lia.
From stdpp Require Import base option list sorting strings gmap fin_maps.

Local Open Scope Z_scope.

(** ** Exceptions and the reader monad *)

Inductive binop := OpAdd | OpSub.

Inductive exn :=
| KeyError (key : string)
| IndexError
| ValueError
| AttributeError
| TypeError (op : binop).   (* unsupported operand type(s) for [op] *)

Inductive outcome (A : Type) :=
| Return (a : A)
| Raise (e : exn).
Arguments Return {A} a.
Arguments Raise {A} e.

Definition M (S A : Type) : Type := S → S * outcome A.

Definition ret {S A} (a : A) : M S A := λ s, (s, Return a).
Definition raise {S A} (e : exn) : M S A := λ s, (s, Raise e).
Definition bind {S A B} (c : M S A) (k : A → M S B) : M S B :=
  λ s, match c s with
       | (s', Return a) => k a s'
       | (s', Raise e) => (s', Raise e)
       end.
Definition get {S} : M S S := λ s, (s, Return s).
Definition put {S} (s : S) : M S unit := λ _, (s, Return tt).
Definition lift {S A} (o : outcome A) : M S A := λ s, (s, o).

Notation "'do' x <- c ; k" := (bind c (λ x, k))
  (at level 10, x name, c at level 100, k at level 200).
Notation "c ;; k" := (bind c (λ _, k))
  (at level 100, k at level 200, right associativity).

(** The argument of both [timeshift] methods. *)
Inductive Shift :=
| Random (drawn : Z)       (* 'random'; [drawn] is the duration drawn *)
| ToTimestamp (A : Z)      (* a pd.Timestamp *)
| ByTimedelta (d : Z)      (* a pd.Timedelta *)
| NoShift.                 (* anything else, None for one *)

(** ** Clock arithmetic *)

Module Clock.

Definition NS_PER_US : Z := 1000.
Definition NS_PER_SEC : Z := 1000000000.
Definition NS_PER_MIN : Z := 60 * NS_PER_SEC.
Definition NS_PER_HOUR : Z := 60 * NS_PER_MIN.
Definition NS_PER_DAY : Z := 24 * NS_PER_HOUR.

(** [.round('min')] of a Timestamp or a Timedelta: pandas rounds the
    nanosecond value to the nearest multiple of the unit, ties to the even
    multiple, from a floored [divmod]. *)
Definition round_min (value : Z) : Z :=
  let unit := NS_PER_MIN in
  let quotient := value / unit in
  let remainder := value mod unit in
  if (unit / 2 <? remainder) || ((remainder =? unit / 2) && Z.odd quotient)
  then (quotient + 1) * unit
  else quotient * unit.

(** [dt.time]: compared field by field, in this order. *)
Record Time := mkTime { hour : Z; minute : Z; second : Z; microsecond : Z }.

Definition time_compare (a b : Time) : comparison :=
  match hour a ?= hour b with
  | Eq => match minute a ?= minute b with
          | Eq => match second a ?= second b with
                  | Eq => microsecond a ?= microsecond b
                  | c => c
                  end
          | c => c
          end
  | c => c
  end.

Definition time_gt (a b : Time) : bool :=
  match time_compare a b with Gt => true | _ => false end.
Definition time_lt (a b : Time) : bool :=
  match time_compare a b with Lt => true | _ => false end.

(** [dt.time(hour=h, minute=m)] *)
Definition hm (h m : Z) : Time := mkTime h m 0 0.

Definition time_ns (t : Time) : Z :=
  hour t * NS_PER_HOUR + minute t * NS_PER_MIN + second t * NS_PER_SEC
  + microsecond t * NS_PER_US.

(** [dt.datetime.combine(date, time)], as a nanosecond timestamp. *)
Definition combine (date : Z) (t : Time) : Z := date * NS_PER_DAY + time_ns t.

(** [timestamp.date()] and [timestamp.time()] *)
Definition date_of (ts : Z) : Z := ts / NS_PER_DAY.
Definition time_of (ts : Z) : Time :=
  let r := ts mod NS_PER_DAY in
  mkTime (r / NS_PER_HOUR) (r mod NS_PER_HOUR / NS_PER_MIN)
         (r mod NS_PER_MIN / NS_PER_SEC) (r mod NS_PER_SEC / NS_PER_US).

End Clock.

(** ** Device B: the Spacelabs reader *)

Module Spacelabs.
Import Clock.

(** A value of the [metadata] dict: a leaf or a nested dict, in insertion
    order. *)
#[warnings="-register-all"]
Inductive PyVal :=
| PNone
| PStr (s : string)
| PInt (n : Z)
| PDict (items : list (string * PyVal)).

(** What a cell of a window column holds: an integer label of the
    positional index, or a timestamp. *)
Inductive Cell := IntCell (n : Z) | TsCell (t : Z).

Record Row := mkRow {
  timestamp : Z;
  date : Z;
  time : Time;
  SYS : option Z;
  DIA : option Z;
  x_ : option Z;
  y_ : option Z;
  z_ : option Z;
  error : option string;           (* NaN, 'EB', 'AB' *)
  window_start : option Cell;      (* None: the column does not exist *)
  window_end : option Cell
}.

(** [self.data].  After [__init__] the index is the integer range and
    ['timestamp'] is a column; after [drop_EB] the index is named
    ['timestamp'] and holds the timestamps, which are no column any more. *)
Inductive DataFrame :=
| Positional (rows : list (Z * Row))
| Timestamped (rows : list Row).

Record SpacelabsReader := mkReader {
  subject : string;
  valid_measurements : string;
  data : DataFrame;
  metadata : list (string * PyVal)
}.

(** The keys of a dict and of the dicts nested in it, each with the keys
    on the way to it. *)
Fixpoint key_paths (v : PyVal) : list (list string) :=
  match v with
  | PDict items =>
      (fix over (items : list (string * PyVal)) : list (list string) :=
         match items with
         | [] => []
         | (k, v') :: rest => [k] :: (cons k <$> key_paths v') ++ over rest
         end) items
  | _ => []
  end.

Definition set_subject (s : string) : M SpacelabsReader unit :=
  λ self, (mkReader s (valid_measurements self) (data self) (metadata self), Return tt).
Definition with_data (df : DataFrame) (self : SpacelabsReader) : SpacelabsReader :=
  mkReader (subject self) (valid_measurements self) df (metadata self).
Definition set_data (df : DataFrame) : M SpacelabsReader unit :=
  λ self, (with_data df self, Return tt).
Definition set_metadata (md : list (string * PyVal)) : M SpacelabsReader unit :=
  λ self, (mkReader (subject self) (valid_measurements self) (data self) md, Return tt).

Definition map_rows (f : Row → Row) (df : DataFrame) : DataFrame :=
  match df with
  | Positional rows => Positional (prod_map id f <$> rows)
  | Timestamped rows => Timestamped (f <$> rows)
  end.

Definition frame_rows (df : DataFrame) : list Row :=
  match df with
  | Positional rows => rows.*2
  | Timestamped rows => rows
  end.

(** *** [__init__] *)

(** One parsed line of the table of the abp file. *)
Record RawRow := mkRaw {
  raw_time : Time;                 (* dt.time(hour=int(hours), minute=int(minutes)) *)
  raw_SYS : option Z;
  raw_DIA : option Z;
  raw_x : option Z;
  raw_y : option Z;
  raw_error : option string;
  raw_z : option Z
}.

(** The fields [__init__] takes from the file. *)
Record AbpFile := mkAbp {
  abp_subject : string;
  abp_base_date : Z;
  abp_valid_measurements : string;
  abp_rows : list RawRow;
  abp_DOB : option string;
  abp_RACE : option string;
  abp_PHYSICIAN : option string;
  abp_NURSETECH : option string;
  abp_STATUS : option string;
  abp_COUNT : Z
}.

(** The loop [for i in range(1, len(self.data))], entered with the
    previous row's time. *)
Fixpoint adjust_dates_from (current_date : Z) (previous : Time) (rest : list Time)
  : list Z :=
  match rest with
  | [] => []
  | current :: rest' =>
      let current_date' :=
        if time_gt previous current then current_date + 1 else current_date in
      current_date' :: adjust_dates_from current_date' current rest'
  end.

Definition adjust_dates (base_date : Z) (times : list Time) : list Z :=
  base_date :: match times with
               | [] => []
               | first :: rest => adjust_dates_from base_date first rest
               end.

Definition text (o : option string) : PyVal :=
  match o with Some s => PStr s | None => PNone end.

Definition read_metadata (f : AbpFile) : list (string * PyVal) :=
  [ ("PATIENTINFO", PDict [ ("DOB", text (abp_DOB f)); ("RACE", text (abp_RACE f)) ]);
    ("REPORTINFO", PDict [ ("PHYSICIAN", text (abp_PHYSICIAN f));
                           ("NURSETECH", text (abp_NURSETECH f));
                           ("STATUS", text (abp_STATUS f));
                           ("CALIPERSUMMARY", PDict [ ("COUNT", PInt (abp_COUNT f)) ]) ]) ].

Definition make_row (d : Z) (r : RawRow) : Row :=
  mkRow (combine d (raw_time r)) d (raw_time r)
        (raw_SYS r) (raw_DIA r) (raw_x r) (raw_y r) (raw_z r) (raw_error r) None None.

(** [dates] has one entry even when the table is empty; reading
    [self.data.time[0]] of the empty table then raises an AttributeError. *)
Definition init (f : AbpFile) : outcome SpacelabsReader :=
  let dates := adjust_dates (abp_base_date f) (raw_time <$> abp_rows f) in
  match abp_rows f with
  | [] => Raise AttributeError
  | _ =>
      let rows := zip_with make_row dates (abp_rows f) in
      Return (mkReader (abp_subject f) (abp_valid_measurements f)
                       (Positional (imap (λ i r, (Z.of_nat i, r)) rows))
                       (read_metadata f))
  end.

(** *** [deidentify] *)

(** [if subject_id:] holds for a string that is not empty. *)
Definition deidentify (subject_id : option string) : M SpacelabsReader unit :=
  (match subject_id with
   | Some s => if String.eqb s "" then set_subject "xxxxxx" else set_subject s
   | None => set_subject "xxxxxx"
   end) ;;
  do self <- get;
  set_metadata ((λ kv, (kv.1, PNone)) <$> metadata self).

(** *** [timeshift] *)

Definition set_timestamp (t : Z) (r : Row) : Row :=
  mkRow t (date r) (time r) (SYS r) (DIA r) (x_ r) (y_ r) (z_ r) (error r)
        (window_start r) (window_end r).

(** [date] and [time] are read back from the timestamp. *)
Definition rederive (r : Row) : Row :=
  mkRow (timestamp r) (date_of (timestamp r)) (time_of (timestamp r))
        (SYS r) (DIA r) (x_ r) (y_ r) (z_ r) (error r)
        (window_start r) (window_end r).

(** [self.data.index[0]] is the first row; [self.data.timestamp[0]] is the
    row labelled 0. *)
Definition first_timestamp (df : DataFrame) : outcome Z :=
  match df with
  | Timestamped rows =>
      match rows with
      | r :: _ => Return (timestamp r)
      | [] => Raise IndexError
      end
  | Positional rows =>
      match list_find (λ p, p.1 = 0) rows with
      | Some (_, (_, r)) => Return (timestamp r)
      | None => Raise (KeyError "0")
      end
  end.

(** The body of the method on the unbounded integers of the conventions
    above: where a sum leaves the 64 bits of nanoseconds the code raises an
    OverflowError and moves nothing, which is not modelled. *)
Definition timeshift_once (shift : Shift) : M SpacelabsReader unit :=
  (match shift with
   | ToTimestamp A =>
       do self <- get;
       do first <- lift (first_timestamp (data self));
       set_data (map_rows (λ r, set_timestamp (round_min A + (timestamp r - first)) r)
                          (data self))
   | ByTimedelta d =>
       do self <- get;
       set_data (map_rows (λ r, set_timestamp (timestamp r + round_min d) r) (data self))
   | _ => ret tt
   end) ;;
  do self <- get;
  set_data (map_rows rederive (data self)).

(** With 'random' the method calls itself with the drawn duration, and then
    runs to its end, where only the last two assignments apply. *)
Definition timeshift (shift : Shift) : M SpacelabsReader unit :=
  match shift with
  | Random drawn =>
      timeshift_once (ByTimedelta (- round_min drawn)) ;; timeshift_once NoShift
  | _ => timeshift_once shift
  end.

(** *** [drop_EB] *)

Definition not_EB (r : Row) : bool :=
  negb (bool_decide (error r = Some "EB")).

Definition select (keep : Row → bool) (df : DataFrame) : DataFrame :=
  match df with
  | Positional rows => Positional (filter (λ p, keep p.2 = true) rows)
  | Timestamped rows => Timestamped (filter (λ r, keep r = true) rows)
  end.

(** [set_index('timestamp')] checks nothing but that the column exists. *)
Definition drop_EB : M SpacelabsReader unit :=
  do self <- get;
  set_data (select not_EB (data self)) ;;
  do self <- get;
  match data self with
  | Positional rows => set_data (Timestamped (rows.*2))
  | Timestamped _ => raise (KeyError "timestamp")
  end.

(** *** [set_window] *)

(** [self.data.index] as the cells of a column. *)
Definition index_cells (df : DataFrame) : list Cell :=
  match df with
  | Positional rows => (λ p, IntCell p.1) <$> rows
  | Timestamped rows => (λ r, TsCell (timestamp r)) <$> rows
  end.

(** [self.data.index - d] and [self.data.index + d] for a duration [d]:
    pandas translates a datetime index and refuses an integer index. *)
Definition index_arith (op : binop) (df : DataFrame) (d : Z) : outcome (list Cell) :=
  match df with
  | Positional _ => Raise (TypeError op)
  | Timestamped rows =>
      Return ((λ r, TsCell (match op with
                            | OpAdd => timestamp r + d
                            | OpSub => timestamp r - d
                            end)) <$> rows)
  end.

Definition set_window_start (c : Cell) (r : Row) : Row :=
  mkRow (timestamp r) (date r) (time r) (SYS r) (DIA r) (x_ r) (y_ r) (z_ r) (error r)
        (Some c) (window_end r).
Definition set_window_end (c : Cell) (r : Row) : Row :=
  mkRow (timestamp r) (date r) (time r) (SYS r) (DIA r) (x_ r) (y_ r) (z_ r) (error r)
        (window_start r) (Some c).

(** [self.data[column] = cells], row by row. *)
Definition assign (set : Cell → Row → Row) (cells : list Cell) (df : DataFrame)
  : DataFrame :=
  match df with
  | Positional rows => Positional (zip_with (λ c p, (p.1, set c p.2)) cells rows)
  | Timestamped rows => Timestamped (zip_with set cells rows)
  end.

Definition set_window (window_duration : Z) (window_type : string)
  : M SpacelabsReader unit :=
  if String.eqb window_type "bffill" then
    do self <- get;
    do cells <- lift (index_arith OpSub (data self) (window_duration / 2));
    set_data (assign set_window_start cells (data self)) ;;
    do self <- get;
    do cells <- lift (index_arith OpAdd (data self) (window_duration / 2));
    set_data (assign set_window_end cells (data self))
  else if String.eqb window_type "bfill" then
    do self <- get;
    do cells <- lift (index_arith OpSub (data self) window_duration);
    set_data (assign set_window_start cells (data self)) ;;
    do self <- get;
    set_data (assign set_window_end (index_cells (data self)) (data self))
  else if String.eqb window_type "ffill" then
    do self <- get;
    set_data (assign set_window_start (index_cells (data self)) (data self)) ;;
    do self <- get;
    do cells <- lift (index_arith OpAdd (data self) window_duration);
    set_data (assign set_window_end cells (data self))
  else ret tt.

End Spacelabs.

(** ** Device A: the Empatica reader *)

Module Empatica.

(** A Series or a DataFrame indexed by time: the index and, row by row,
    what the columns hold.  [_read_signal] ends with [squeeze()], which
    turns a file of one row into something that is not indexed by time; the
    tables here are those of files with two rows or more. *)
Record Table (A : Type) := mkTable { index : list Z; values : list A }.
Arguments mkTable {A} index values.
Arguments index {A} t.
Arguments values {A} t.

(** A signal file that exists and is not empty: its two header lines (the
    second as the period [1 / sample_freq] in nanoseconds) and its rows. *)
Record SignalFile (A : Type) := mkSignalFile {
  file_start : Z;
  file_period : Z;
  file_rows : list A
}.
Arguments mkSignalFile {A} _ _ _.
Arguments file_start {A} _.
Arguments file_period {A} _.
Arguments file_rows {A} _.

Section Payload.

(** The type of a sample that is present; a cell is a sample or NaN. *)
Context {V : Type}.
Definition cell : Type := option V.

(** The joined DataFrame: a column exists when its signal was read. *)
Record Joined := mkJoined {
  joined_index : list Z;
  ACC_X : option (list cell);
  ACC_Y : option (list cell);
  ACC_Z : option (list cell);
  col_BVP : option (list cell);
  col_EDA : option (list cell);
  col_HR : option (list cell);
  col_TEMP : option (list cell)
}.

Record EmpaticaReader := mkReader {
  start_times : gmap string Z;
  ACC : option (Table (cell * cell * cell));
  BVP : option (Table cell);
  EDA : option (Table cell);
  HR : option (Table cell);
  TEMP : option (Table cell);
  IBI : option (Table cell);
  tags : option (list Z);
  data : option Joined
}.

(** *** Reading *)

(** [pd.date_range(start, freq, periods)], the frequency in nanoseconds. *)
Definition date_range (start freq : Z) (periods : nat) : list Z :=
  (λ k, start + Z.of_nat k * freq) <$> seq 0 periods.

(** The table of a file, before the [squeeze()] that ends the method.  For
    a file of two rows or more [squeeze()] returns that table (as a Series
    when it has one column); for a file of one row it returns a scalar, or
    for ACC a Series over 'X', 'Y', 'Z', which no [Table] stands for: the
    properties of what is read are stated for files of two rows or more. *)
Definition _read_signal {A} (file : option (SignalFile A)) : option (Table A) :=
  match file with
  | Some f =>
      Some (mkTable (date_range (file_start f) (file_period f) (length (file_rows f)))
                    (file_rows f))
  | None => None
  end.

(** The IBI file: its start and rows of an offset (in nanoseconds) and a
    value. *)
Record IbiFile := mkIbiFile { ibi_start : Z; ibi_rows : list (Z * cell) }.

Definition _read_ibi (file : option IbiFile) : option (Table cell) :=
  match file with
  | Some f => Some (mkTable ((λ row, ibi_start f + row.1) <$> ibi_rows f)
                            ((ibi_rows f).*2))
  | None => None
  end.

(** *** [_get_joined_dataframe] *)

(** [drop_duplicates()] keeps the first of equal entries. *)
Fixpoint drop_duplicates (l : list Z) : list Z :=
  match l with
  | [] => []
  | t :: l' => t :: filter (λ u, u ≠ t) (drop_duplicates l')
  end.

Definition sort_values (l : list Z) : list Z := merge_sort Z.le l.

(** [series[t]] for a label [t] of the series; NaN where [t] is none. *)
Definition at_label {A} (t : Z) (s : Table A) : option A :=
  (λ found, found.2.2) <$> list_find (λ row, row.1 = t) (zip (index s) (values s)).

(** [joined.loc[series.index, column] = series]: the column holds the
    value of the series at its own labels and NaN elsewhere. *)
Definition scatter (joined_idx : list Z) (s : Table cell) : list cell :=
  (λ t, mjoin (at_label t s)) <$> joined_idx.

Definition column {A} (f : A → cell) (s : Table A) : Table cell :=
  mkTable (index s) (f <$> values s).

Definition _get_joined_dataframe (self : EmpaticaReader) : option Joined :=
  let dataframes :=
    omap id [index <$> ACC self; index <$> BVP self; index <$> EDA self;
             index <$> HR self; index <$> TEMP self] in
  match dataframes with
  | [] => None
  | _ =>
      let joined_idx := sort_values (drop_duplicates (concat dataframes)) in
      Some (mkJoined joined_idx
              ((λ s, scatter joined_idx (column (λ v, v.1.1) s)) <$> ACC self)
              ((λ s, scatter joined_idx (column (λ v, v.1.2) s)) <$> ACC self)
              ((λ s, scatter joined_idx (column (λ v, v.2) s)) <$> ACC self)
              (scatter joined_idx <$> BVP self)
              (scatter joined_idx <$> EDA self)
              (scatter joined_idx <$> HR self)
              (scatter joined_idx <$> TEMP self))
  end.

(** *** [__init__] *)

Record Directory := mkDirectory {
  ACC_csv : option (SignalFile (cell * cell * cell));
  BVP_csv : option (SignalFile cell);
  EDA_csv : option (SignalFile cell);
  HR_csv : option (SignalFile cell);
  TEMP_csv : option (SignalFile cell);
  IBI_csv : option IbiFile;
  tags_csv : option (list Z)
}.

Definition note_start (name : string) (start : option Z) (st : gmap string Z)
  : gmap string Z :=
  match start with
  | Some t => <[name := t]> st
  | None => st
  end.

(** The reader for a directory whose signal files have two rows or more.
    With a signal file of one row [_get_joined_dataframe] meets a value
    that has no index of instants, and [__init__] raises an AttributeError
    or leaves tables that are not indexed by time. *)
Definition init (dir : Directory) : EmpaticaReader :=
  let st :=
    note_start "IBI" (ibi_start <$> IBI_csv dir)
      (note_start "TEMP" (file_start <$> TEMP_csv dir)
        (note_start "HR" (file_start <$> HR_csv dir)
          (note_start "EDA" (file_start <$> EDA_csv dir)
            (note_start "BVP" (file_start <$> BVP_csv dir)
              (note_start "ACC" (file_start <$> ACC_csv dir) ∅))))) in
  let self :=
    mkReader st (_read_signal (ACC_csv dir)) (_read_signal (BVP_csv dir))
             (_read_signal (EDA_csv dir)) (_read_signal (HR_csv dir))
             (_read_signal (TEMP_csv dir)) (_read_ibi (IBI_csv dir))
             (tags_csv dir) None in
  mkReader (start_times self) (ACC self) (BVP self) (EDA self) (HR self) (TEMP self)
           (IBI self) (tags self) (_get_joined_dataframe self).

(** The columns of the joined table by name, and under the same names the
    columns of the signals they come from. *)
Definition joined_columns (j : Joined) : list (string * list cell) :=
  omap id [ pair "ACC_X" <$> ACC_X j; pair "ACC_Y" <$> ACC_Y j; pair "ACC_Z" <$> ACC_Z j;
            pair "BVP" <$> col_BVP j; pair "EDA" <$> col_EDA j; pair "HR" <$> col_HR j;
            pair "TEMP" <$> col_TEMP j ].

Definition signal_columns (self : EmpaticaReader) : list (string * Table cell) :=
  omap id [ (λ s, ("ACC_X", column (λ v, v.1.1) s)) <$> ACC self;
            (λ s, ("ACC_Y", column (λ v, v.1.2) s)) <$> ACC self;
            (λ s, ("ACC_Z", column (λ v, v.2) s)) <$> ACC self;
            pair "BVP" <$> BVP self; pair "EDA" <$> EDA self; pair "HR" <$> HR self;
            pair "TEMP" <$> TEMP self ].



(** A table as [_read_signal] builds it: one label per row, no label
    twice. *)
Definition well_indexed {A} (s : Table A) : Prop :=
  length (index s) = length (values s) ∧ NoDup (index s).

(** A table that [squeeze()] returns as it is, indexed by time: one of two
    rows or more. *)
Definition survives_squeeze {A} (s : Table A) : Prop := (2 ≤ length (index s))%nat.

(** *** [timeshift] *)

Definition modify (f : EmpaticaReader → EmpaticaReader) : M EmpaticaReader unit :=
  λ self, (f self, Return tt).

Definition with_start_times (f : gmap string Z → gmap string Z) (self : EmpaticaReader)
  : EmpaticaReader :=
  mkReader (f (start_times self)) (ACC self) (BVP self) (EDA self) (HR self) (TEMP self)
           (IBI self) (tags self) (data self).

Definition with_tags (f : list Z → list Z) (self : EmpaticaReader) : EmpaticaReader :=
  mkReader (start_times self) (ACC self) (BVP self) (EDA self) (HR self) (TEMP self)
           (IBI self) (f <$> tags self) (data self).

Definition reindex {A} (f : list Z → list Z) (s : Table A) : Table A :=
  mkTable (f (index s)) (values s).

Definition reindex_joined (f : list Z → list Z) (j : Joined) : Joined :=
  mkJoined (f (joined_index j)) (ACC_X j) (ACC_Y j) (ACC_Z j)
           (col_BVP j) (col_EDA j) (col_HR j) (col_TEMP j).

(** [for dataframe in dataframes: dataframe.index = ...] over
    [self.ACC, self.BVP, self.EDA, self.HR, self.TEMP, self.data], those
    that are not None. *)
Definition with_dataframes (f : list Z → list Z) (self : EmpaticaReader)
  : EmpaticaReader :=
  mkReader (start_times self) (reindex f <$> ACC self) (reindex f <$> BVP self)
           (reindex f <$> EDA self) (reindex f <$> HR self) (reindex f <$> TEMP self)
           (IBI self) (tags self) (reindex_joined f <$> data self).

(** [min(...)] of a sequence; None when it is empty. *)
Definition minimum (l : list Z) : option Z :=
  match l with
  | [] => None
  | t :: rest => Some (foldl Z.min t rest)
  end.

(** [shift + (x - x.min())] on an index or on the tags; an empty one has
    nothing to move. *)
Definition anchor (A : Z) (l : list Z) : list Z :=
  match minimum l with
  | Some m => (λ t, A + (t - m)) <$> l
  | None => l
  end.

Definition translate (d : Z) (l : list Z) : list Z := (λ t, t + d) <$> l.

(** The body of the method on the unbounded integers of the conventions
    above: where a sum leaves the 64 bits of nanoseconds the code raises an
    OutOfBoundsDatetime or OverflowError, which is not modelled. *)
Definition timeshift_once (shift : Shift) : M EmpaticaReader unit :=
  match shift with
  | ToTimestamp A =>
      do self <- get;
      do min_start_time <-
        lift (match minimum (map_to_list (start_times self)).*2 with
              | Some m => Return m
              | None => Raise ValueError
              end);
      modify (with_start_times
                (fmap (λ start_time, A + (start_time - min_start_time)))) ;;
      modify (with_tags (anchor A)) ;;
      modify (with_dataframes (anchor A))
  | ByTimedelta d =>
      modify (with_start_times (fmap (λ start_time, start_time + d))) ;;
      modify (with_tags (translate d)) ;;
      modify (with_dataframes (translate d))
  | _ => ret tt
  end.

(** With 'random' the method calls itself with the drawn duration and then
    runs to its end, where no branch applies. *)
Definition timeshift (shift : Shift) : M EmpaticaReader unit :=
  match shift with
  | Random drawn => timeshift_once (ByTimedelta drawn) ;; timeshift_once NoShift
  | _ => timeshift_once shift
  end.

(** *** [_write_ibi] *)

(** The first column written: the offsets of the entries from
    [start_times['IBI']], in nanoseconds. *)
Definition ibi_offsets (self : EmpaticaReader) : outcome (list Z) :=
  match start_times self !! "IBI", IBI self with
  | Some start, Some ibi => Return ((λ t, t - start) <$> index ibi)
  | None, _ => Raise (KeyError "IBI")
  | Some _, None => Raise AttributeError
  end.

End Payload.
Arguments cell : clear implicits.
Arguments Joined : clear implicits.
Arguments EmpaticaReader : clear implicits.
Arguments Directory : clear implicits.
Arguments IbiFile : clear implicits.
End Empatica.

(** ** Inputs used below *)

Module Examples.
Import Clock.

Definition reading (h m : Z) (sys dia : Z) (err : option string) : Spacelabs.RawRow :=
  Spacelabs.mkRaw (hm h m) (Some sys) (Some dia) None None err None.

(** A night of readings: one is an 'EB' error, and two readings without
    one were taken within the same minute. *)
Definition night : Spacelabs.AbpFile :=
  Spacelabs.mkAbp "000001" 18000 "4"
    [ reading 23 58 121 80 None;
      reading 23 59 0 0 (Some "EB");
      reading 0 1 118 79 None;
      reading 0 1 117 78 None;
      reading 0 5 116 77 (Some "AB") ]
    (Some "01.01.1970") None (Some "Dr. A") None (Some "final") 4.

Definition night_reader : Spacelabs.SpacelabsReader :=
  match Spacelabs.init night with
  | Return self => self
  | Raise _ => Spacelabs.mkReader "" "" (Spacelabs.Positional []) []
  end.

(** The same after [drop_EB]. *)
Definition night_kept : Spacelabs.SpacelabsReader :=
  (Spacelabs.drop_EB night_reader).1.

(** A session: the accelerometer at 32 Hz and the skin conductance at
    4 Hz start together, the heart rate at 1 Hz starts ten seconds later. *)
Definition t0 : Z := 1600000000 * NS_PER_SEC.

Definition session : Empatica.Directory Z :=
  Empatica.mkDirectory
    (Some (Empatica.mkSignalFile t0 31250000
             [ (Some 1, Some 2, Some 63); (Some 0, Some 2, Some 64); (Some 1, Some 3, Some 62) ]))
    None
    (Some (Empatica.mkSignalFile t0 250000000 [ Some 5; Some 6 ]))
    (Some (Empatica.mkSignalFile (t0 + 10 * NS_PER_SEC) NS_PER_SEC [ Some 71; Some 72 ]))
    None
    (Some (Empatica.mkIbiFile t0 [ (750000000, Some 8); (1500000000, Some 7) ]))
    (Some [ t0 + 2 * NS_PER_SEC ]).

Definition session_reader : Empatica.EmpaticaReader Z := Empatica.init session.

End Examples.

(** ** Invariants of the readers *)

Module Invariants.
Import Clock.

(** A time of day that the constructor of [dt.time] accepts. *)
Definition valid_time (t : Time) : Prop :=
  0 ≤ hour t < 24 ∧ 0 ≤ minute t < 60 ∧ 0 ≤ second t < 60
  ∧ 0 ≤ microsecond t < 1000000.

(** The three temporal columns of a row of device B agree: the date and
    the time are those of the timestamp, and the timestamp combines them. *)
Definition coherent (r : Spacelabs.Row) : Prop :=
  Spacelabs.date r = date_of (Spacelabs.timestamp r)
  ∧ Spacelabs.time r = time_of (Spacelabs.timestamp r)
  ∧ Spacelabs.timestamp r = combine (Spacelabs.date r) (Spacelabs.time r).

(** What a [pd.Timestamp] and a [pd.Timedelta] hold: 64 bits of
    nanoseconds. *)
Definition representable (t : Z) : Prop := - 2 ^ 63 < t < 2 ^ 63.

(** An instant within a century (36500 days) of the epoch, or a duration
    of at most a century.  The sum of two of them is representable, so
    that a shift of such an instant by such a duration does not leave the
    range of [pd.Timestamp]. *)
Definition CENTURY : Z := 36500 * NS_PER_DAY.
Definition within_a_century (t : Z) : Prop := - CENTURY ≤ t ≤ CENTURY.

(** [P] holds of every instant that [timeshift] moves in a reader of
    device A: the entries of [start_times], the tags, and the labels of
    ACC, BVP, EDA, HR, TEMP and of the joined table. *)
Definition all_instants {V} (P : Z → Prop) (self : Empatica.EmpaticaReader V) : Prop :=
  map_Forall (λ _, P) (Empatica.start_times self)
  ∧ Forall P (default [] (Empatica.tags self))
  ∧ Forall P (from_option Empatica.index [] (Empatica.ACC self))
  ∧ Forall P (from_option Empatica.index [] (Empatica.BVP self))
  ∧ Forall P (from_option Empatica.index [] (Empatica.EDA self))
  ∧ Forall P (from_option Empatica.index [] (Empatica.HR self))
  ∧ Forall P (from_option Empatica.index [] (Empatica.TEMP self))
  ∧ Forall P (from_option Empatica.joined_index [] (Empatica.data self)).

(** The entry of [start_times] under [name] is the first label of the
    table, when the table has a row. *)
Definition starts_with {A} (name : string) (st : gmap string Z)
    (o : option (Empatica.Table A)) : Prop :=
  ∀ s t, o = Some s → head (Empatica.index s) = Some t → st !! name = Some t.

(** [start_times] agrees with the five signal tables of device A. *)
Definition starts_where_recorded {V} (self : Empatica.EmpaticaReader V) : Prop :=
  starts_with "ACC" (Empatica.start_times self) (Empatica.ACC self)
  ∧ starts_with "BVP" (Empatica.start_times self) (Empatica.BVP self)
  ∧ starts_with "EDA" (Empatica.start_times self) (Empatica.EDA self)
  ∧ starts_with "HR" (Empatica.start_times self) (Empatica.HR self)
  ∧ starts_with "TEMP" (Empatica.start_times self) (Empatica.TEMP self).

(** A signal file of two rows or more: [squeeze()] leaves its table
    indexed by time. *)
Definition tabular {A} (file : Empatica.SignalFile A) : Prop :=
  (2 ≤ length (Empatica.file_rows file))%nat.

(** A directory whose signal files, where they exist, are such files. *)
Definition readable {V} (dir : Empatica.Directory V) : Prop :=
  (∀ file, Empatica.ACC_csv dir = Some file → tabular file)
  ∧ (∀ file, Empatica.BVP_csv dir = Some file → tabular file)
  ∧ (∀ file, Empatica.EDA_csv dir = Some file → tabular file)
  ∧ (∀ file, Empatica.HR_csv dir = Some file → tabular file)
  ∧ (∀ file, Empatica.TEMP_csv dir = Some file → tabular file).

(** [after] is [before] moved as a whole. *)
Definition translated (before after : list Z) : Prop :=
  ∃ c, after = (λ t, t + c) <$> before.

(** A table of device A keeps its values and is moved as a whole. *)
Definition table_translated {A} (before after : option (Empatica.Table A)) : Prop :=
  ∀ s, before = Some s →
       ∃ s', after = Some s' ∧ Empatica.values s' = Empatica.values s
             ∧ translated (Empatica.index s) (Empatica.index s').

End Invariants.

(** ** Further inputs *)

Module MoreExamples.
Import Clock.

(** A night on which every reading failed with an 'EB' error. *)
Definition failed_night : Spacelabs.AbpFile :=
  Spacelabs.mkAbp "000002" 18000 "0"
    [ Examples.reading 22 0 0 0 (Some "EB");
      Examples.reading 22 3 0 0 (Some "EB") ]
    None None None None None 0.

Definition failed_reader : Spacelabs.SpacelabsReader :=
  match Spacelabs.init failed_night with
  | Return self => self
  | Raise _ => Spacelabs.mkReader "" "" (Spacelabs.Positional []) []
  end.

(** A session directory that holds nothing but the tags file. *)
Definition tags_only : Empatica.Directory Z :=
  Empatica.mkDirectory None None None None None None
    (Some [ Examples.t0; Examples.t0 + 5 * NS_PER_SEC ]).

End MoreExamples.

(** * Properties *)

(** ** The clock *)

Module ClockFacts.
Import Clock.

Lemma time_compare_antisym a b : time_compare b a = CompOpp (time_compare a b).
Proof.
  unfold time_compare.
  rewrite (Z.compare_antisym (hour a) (hour b)).
  rewrite (Z.compare_antisym (minute a) (minute b)).
  rewrite (Z.compare_antisym (second a) (second b)).
  rewrite (Z.compare_antisym (microsecond a) (microsecond b)).
  destruct (hour a ?= hour b); simpl; try done.
  destruct (minute a ?= minute b); simpl; try done.
  destruct (second a ?= second b); simpl; done.
Qed.

Lemma time_gt_lt a b : time_gt a b = time_lt b a.
Proof.
  unfold time_gt, time_lt. rewrite (time_compare_antisym a b).
  by destruct (time_compare a b).
Qed.

Lemma round_min_multiple k : round_min (k * NS_PER_MIN) = k * NS_PER_MIN.
Proof.
  unfold round_min.
  assert (HU : 0 < NS_PER_MIN) by done.
  rewrite Z.div_mul by lia. rewrite Z.mod_mul by lia.
  replace (NS_PER_MIN / 2 <? 0) with false by done.
  replace (0 =? NS_PER_MIN / 2) with false by done.
  done.
Qed.

End ClockFacts.

(** ** Device B *)

Module SpacelabsFacts.
Import Clock ClockFacts Spacelabs.

(** *** The dates *)

Lemma adjust_dates_from_step rest : ∀ current_date first i previous current d d',
  (first :: rest) !! i = Some previous →
  (first :: rest) !! S i = Some current →
  (current_date :: adjust_dates_from current_date first rest) !! i = Some d →
  (current_date :: adjust_dates_from current_date first rest) !! S i = Some d' →
  d' = if time_gt previous current then d + 1 else d.
Proof.
  induction rest as [|t rest IH]; intros current_date first i previous current d d'.
  - destruct i; simpl; intros; simplify_eq.
  - destruct i as [|i]; simpl.
    + intros; by simplify_eq.
    + intros Hp Hc Hd Hd'. eapply (IH _ t i); eauto.
Qed.

Lemma adjust_dates_step base_date times i previous current d d' :
  times !! i = Some previous →
  times !! S i = Some current →
  adjust_dates base_date times !! i = Some d →
  adjust_dates base_date times !! S i = Some d' →
  d' = if time_lt current previous then d + 1 else d.
Proof.
  rewrite <-time_gt_lt. destruct times as [|first rest]; [done|].
  apply adjust_dates_from_step.
Qed.

Lemma imap_labels {A} (l : list A) : ∀ (label : nat → Z),
  (imap (λ i r, (label i, r)) l).*2 = l.
Proof.
  induction l as [|a l IH]; intros label; [done|].
  simpl. f_equal. apply (IH (label ∘ S)).
Qed.

(** What [__init__] leaves in [self.data] when it returns. *)
Lemma init_rows f self :
  init f = Return self →
  frame_rows (data self)
  = zip_with make_row (adjust_dates (abp_base_date f) (raw_time <$> abp_rows f))
             (abp_rows f).
Proof.
  unfold init.
  remember (zip_with make_row _ (abp_rows f)) as rows eqn:Hrows.
  destruct (abp_rows f); [done|].
  intros [= <-]. rewrite Hrows. apply imap_labels.
Qed.

Lemma init_row_lookup f self i r :
  init f = Return self →
  frame_rows (data self) !! i = Some r →
  ∃ raw, abp_rows f !! i = Some raw
         ∧ adjust_dates (abp_base_date f) (raw_time <$> abp_rows f) !! i = Some (date r)
         ∧ time r = raw_time raw
         ∧ timestamp r = combine (date r) (time r).
Proof.
  intros Hinit. rewrite (init_rows _ _ Hinit).
  intros (d & raw & -> & Hd & Hraw)%lookup_zip_with_Some. eauto.
Qed.



(** *** [drop_EB] *)

Lemma drop_EB_positional self rows :
  data self = Positional rows →
  drop_EB self
  = (with_data (Timestamped (filter (λ r, not_EB r = true) rows.*2)) self, Return tt).
Proof.
  intros Hdata. unfold drop_EB, bind, get, set_data. simpl. rewrite Hdata. simpl.
  unfold with_data. simpl. do 3 f_equal. clear Hdata.
  induction rows as [|[l r] rows IH]; [done|].
  rewrite fmap_cons. destruct (decide (not_EB r = true)) as [H|H].
  - rewrite !filter_cons_True by exact H. by rewrite fmap_cons, IH.
  - by rewrite !filter_cons_False by exact H.
Qed.

Lemma init_positional f self :
  init f = Return self → ∃ rows, data self = Positional rows.
Proof.
  unfold init. destruct (abp_rows f); [done|]. intros [= <-]. eauto.
Qed.

(** C5.  The readings of [Examples.night] that are no 'EB' errors include
    two of the same minute.  [drop_EB] returns without an error and leaves
    both rows in the table, under the same timestamp. *)
Theorem drop_EB_keeps_shared_timestamps :
  ∃ self' r1 r2 r3 r4,
    drop_EB Examples.night_reader = (self', Return tt)
    ∧ data self' = Timestamped [r1; r2; r3; r4]
    ∧ timestamp r2 = timestamp r3
    ∧ SYS r2 = Some 118 ∧ SYS r3 = Some 117.
Proof. by repeat eexists. Qed.

(** *** [set_window] *)

Ltac run_on self Hdata :=
  destruct self as [? ? ?df ?]; simpl in Hdata; subst;
  unfold set_window, drop_EB, bind, get, lift, set_data, with_data, ret, raise; simpl.

Lemma set_window_bffill_timestamped d self rows :
  data self = Timestamped rows →
  set_window d "bffill" self
  = (with_data (Timestamped ((λ r, set_window_end (TsCell (timestamp r + d / 2))
                                     (set_window_start (TsCell (timestamp r - d / 2)) r))
                             <$> rows)) self, Return tt).
Proof.
  intros Hdata. run_on self Hdata.
  by rewrite !zip_with_fmap_l, !zip_with_diag, <-list_fmap_compose.
Qed.

Lemma set_window_bfill_timestamped d self rows :
  data self = Timestamped rows →
  set_window d "bfill" self
  = (with_data (Timestamped ((λ r, set_window_end (TsCell (timestamp r))
                                     (set_window_start (TsCell (timestamp r - d)) r))
                             <$> rows)) self, Return tt).
Proof.
  intros Hdata. run_on self Hdata.
  by rewrite !zip_with_fmap_l, !zip_with_diag, <-list_fmap_compose.
Qed.

Lemma set_window_ffill_timestamped d self rows :
  data self = Timestamped rows →
  set_window d "ffill" self
  = (with_data (Timestamped ((λ r, set_window_end (TsCell (timestamp r + d))
                                     (set_window_start (TsCell (timestamp r)) r))
                             <$> rows)) self, Return tt).
Proof.
  intros Hdata. run_on self Hdata.
  by rewrite !zip_with_fmap_l, !zip_with_diag, <-list_fmap_compose.
Qed.

Lemma set_window_bffill_positional d self rows :
  data self = Positional rows →
  set_window d "bffill" self = (self, Raise (TypeError OpSub)).
Proof. intros Hdata. by run_on self Hdata. Qed.

Lemma set_window_bfill_positional d self rows :
  data self = Positional rows →
  set_window d "bfill" self = (self, Raise (TypeError OpSub)).
Proof. intros Hdata. by run_on self Hdata. Qed.

Lemma set_window_ffill_positional d self rows :
  data self = Positional rows →
  set_window d "ffill" self
  = (with_data (Positional ((λ p, (p.1, set_window_start (IntCell p.1) p.2)) <$> rows)) self,
     Raise (TypeError OpAdd)).
Proof.
  intros Hdata. run_on self Hdata.
  by rewrite !zip_with_fmap_l, !zip_with_diag.
Qed.

(** C6, as the code has it.  With a policy that is none of 'bffill',
    'bfill' and 'ffill', [set_window] assigns no column in any row and
    returns: the reader is as it was and no exception is raised. *)
Theorem set_window_unknown_policy d wt self :
  wt ≠ "bffill" → wt ≠ "bfill" → wt ≠ "ffill" →
  set_window d wt self = (self, Return tt).
Proof.
  intros H1 H2 H3. unfold set_window.
  apply String.eqb_neq in H1, H2, H3. by rewrite H1, H2, H3.
Qed.

Lemma set_window_unknown_policy_night :
  "centered" ≠ "bffill" ∧ "centered" ≠ "bfill" ∧ "centered" ≠ "ffill"
  ∧ set_window (30 * NS_PER_MIN) "centered" Examples.night_kept
    = (Examples.night_kept, Return tt).
Proof.
  split; [discriminate|]. split; [discriminate|]. split; [discriminate|].
  apply set_window_unknown_policy; discriminate.
Defined.

(** C6, as the claim has it, fails: the policy 'centered' is none of the
    three and the call raises nothing. *)
Lemma set_window_unknown_policy_not_rejected :
  ¬ ∃ self' e,
      set_window (30 * NS_PER_MIN) "centered" Examples.night_kept = (self', Raise e).
Proof. intros (self' & e & H). vm_compute in H. discriminate. Qed.

(** C7, as the code has it.  On a table keyed by timestamp, 'bffill' with
    the duration [d] gives every row the window from
    [timestamp - d // 2] to [timestamp + d // 2], the division rounding
    down to a whole nanosecond.  The timestamp is the exact midpoint of
    the window; the window is as long as [d] when [d] is an even number of
    nanoseconds and one nanosecond shorter when it is odd. *)
Theorem centered_window d self rows :
  data self = Timestamped rows →
  ∃ self',
    set_window d "bffill" self = (self', Return tt) ∧
    timestamp <$> frame_rows (data self') = timestamp <$> rows ∧
    ∀ r, r ∈ frame_rows (data self') →
      ∃ ws we,
        window_start r = Some (TsCell ws) ∧ window_end r = Some (TsCell we)
        ∧ ws = timestamp r - d / 2 ∧ we = timestamp r + d / 2
        ∧ ws + we = 2 * timestamp r
        ∧ we - ws = d - d mod 2
        ∧ (Z.even d = true → we - ws = d).
Proof.
  intros Hdata. eexists. split; [by apply set_window_bffill_timestamped|].
  cbn [data with_data frame_rows]. split.
  - rewrite <-list_fmap_compose. by apply list_fmap_ext.
  - intros r (r0 & -> & _)%list_elem_of_fmap. do 2 eexists.
    split; [done|]. split; [done|]. cbn [timestamp set_window_end set_window_start].
    split; [done|]. split; [done|]. split; [lia|]. split.
    + Z.div_mod_to_equations. lia.
    + intros Heven%Z.even_spec. destruct Heven as [k ->].
      Z.div_mod_to_equations. lia.
Qed.

Lemma centered_window_night :
  data Examples.night_kept = Timestamped (frame_rows (data Examples.night_kept)) ∧
  ∃ self',
    set_window (30 * NS_PER_MIN) "bffill" Examples.night_kept = (self', Return tt) ∧
    timestamp <$> frame_rows (data self')
    = timestamp <$> frame_rows (data Examples.night_kept) ∧
    ∀ r, r ∈ frame_rows (data self') →
      ∃ ws we,
        window_start r = Some (TsCell ws) ∧ window_end r = Some (TsCell we)
        ∧ ws = timestamp r - 30 * NS_PER_MIN / 2 ∧ we = timestamp r + 30 * NS_PER_MIN / 2
        ∧ ws + we = 2 * timestamp r
        ∧ we - ws = 30 * NS_PER_MIN - (30 * NS_PER_MIN) mod 2
        ∧ (Z.even (30 * NS_PER_MIN) = true → we - ws = 30 * NS_PER_MIN).
Proof.
  split; [reflexivity|].
  apply (centered_window (30 * NS_PER_MIN) Examples.night_kept). reflexivity.
Defined.

(** C7, as the claim has it, fails for a duration of five minutes and one
    nanosecond: the window of the first row is five minutes long. *)
Lemma centered_window_odd_duration :
  ∃ self' r rest ws we,
    set_window (5 * NS_PER_MIN + 1) "bffill" Examples.night_kept = (self', Return tt)
    ∧ data self' = Timestamped (r :: rest)
    ∧ window_start r = Some (TsCell ws) ∧ window_end r = Some (TsCell we)
    ∧ we - ws = 5 * NS_PER_MIN
    ∧ we - ws ≠ 5 * NS_PER_MIN + 1.
Proof. by repeat eexists. Qed.

Lemma recognized_policy (wt : string) :
  wt ∈ ["bffill"; "bfill"; "ffill"] → wt = "bffill" ∨ wt = "bfill" ∨ wt = "ffill".
Proof. rewrite !elem_of_cons, elem_of_nil. tauto. Qed.

(** C10, as the code has it.  [set_window] reads the index of the table.
    After [__init__] the index holds the positions of the rows, and each
    of the three policies raises a type error: 'bffill' and 'bfill' when
    the duration is subtracted from the index, the reader being left as it
    was; 'ffill' when the duration is added to the index, the positions
    having been stored as [window_start] by then.  No row gets a window
    of timestamps.  After [drop_EB] the index holds the timestamps and each
    policy gives every row a window of timestamps. *)
Theorem set_window_needs_drop_EB f self d wt :
  init f = Return self →
  wt ∈ ["bffill"; "bfill"; "ffill"] →
  (∃ self' op,
      set_window d wt self = (self', Raise (TypeError op))
      ∧ (wt ≠ "ffill" → op = OpSub ∧ self' = self)
      ∧ (wt = "ffill" →
         op = OpAdd
         ∧ ∃ rows, data self = Positional rows
             ∧ data self'
               = Positional ((λ p, (p.1, set_window_start (IntCell p.1) p.2)) <$> rows))
      ∧ ∀ r, r ∈ frame_rows (data self') →
          window_end r = None ∧ ∀ t, window_start r ≠ Some (TsCell t)) ∧
  (∃ self',
      (drop_EB ;; set_window d wt) self = (self', Return tt)
      ∧ ∀ r, r ∈ frame_rows (data self') →
          ∃ ws we, window_start r = Some (TsCell ws) ∧ window_end r = Some (TsCell we)).
Proof.
  intros Hinit Hwt.
  assert (Hfresh : ∀ r, r ∈ frame_rows (data self) →
                        window_start r = None ∧ window_end r = None).
  { rewrite (init_rows _ _ Hinit).
    by intros r (d0 & raw & -> & _)%elem_of_zip_with. }
  destruct (init_positional _ _ Hinit) as [rows Hdata].
  split.
  - destruct (recognized_policy _ Hwt) as [-> | [-> | ->]].
    + exists self, OpSub. split; [by eapply set_window_bffill_positional|].
      split; [done|]. split; [done|].
      intros r [Hs He]%Hfresh. by rewrite Hs.
    + exists self, OpSub. split; [by eapply set_window_bfill_positional|].
      split; [done|]. split; [done|].
      intros r [Hs He]%Hfresh. by rewrite Hs.
    + eexists _, OpAdd. split; [by eapply set_window_ffill_positional|].
      split; [done|]. split; [by eauto|].
      cbn [data with_data frame_rows]. rewrite Hdata in Hfresh. cbn in Hfresh.
      rewrite <-list_fmap_compose.
      intros r ([l r0] & -> & Hin)%list_elem_of_fmap.
      assert (r0 ∈ rows.*2) as [_ He]%Hfresh.
      { apply list_elem_of_fmap. by exists (l, r0). }
      done.
  - unfold bind at 1. rewrite (drop_EB_positional _ _ Hdata).
    set (kept := filter _ _).
    set (self1 := with_data (Timestamped kept) self).
    assert (Hdata1 : data self1 = Timestamped kept) by done.
    destruct (recognized_policy _ Hwt) as [-> | [-> | ->]].
    + rewrite (set_window_bffill_timestamped _ _ _ Hdata1). eexists. split; [done|].
      intros r (r0 & -> & _)%list_elem_of_fmap. by do 2 eexists.
    + rewrite (set_window_bfill_timestamped _ _ _ Hdata1). eexists. split; [done|].
      intros r (r0 & -> & _)%list_elem_of_fmap. by do 2 eexists.
    + rewrite (set_window_ffill_timestamped _ _ _ Hdata1). eexists. split; [done|].
      intros r (r0 & -> & _)%list_elem_of_fmap. by do 2 eexists.
Qed.

Lemma set_window_needs_drop_EB_night :
  init Examples.night = Return Examples.night_reader ∧
  "ffill" ∈ ["bffill"; "bfill"; "ffill"] ∧
  (∃ self' op,
      set_window (30 * NS_PER_MIN) "ffill" Examples.night_reader
      = (self', Raise (TypeError op))
      ∧ ("ffill" ≠ "ffill" → op = OpSub ∧ self' = Examples.night_reader)
      ∧ ("ffill" = "ffill" →
         op = OpAdd
         ∧ ∃ rows, data Examples.night_reader = Positional rows
             ∧ data self'
               = Positional ((λ p, (p.1, set_window_start (IntCell p.1) p.2)) <$> rows))
      ∧ ∀ r, r ∈ frame_rows (data self') →
          window_end r = None ∧ ∀ t, window_start r ≠ Some (TsCell t)) ∧
  (∃ self',
      (drop_EB ;; set_window (30 * NS_PER_MIN) "ffill") Examples.night_reader
      = (self', Return tt)
      ∧ ∀ r, r ∈ frame_rows (data self') →
          ∃ ws we, window_start r = Some (TsCell ws) ∧ window_end r = Some (TsCell we)).
Proof.
  split; [reflexivity|].
  split; [by rewrite !elem_of_cons; auto|].
  apply (set_window_needs_drop_EB Examples.night); [reflexivity|].
  rewrite !elem_of_cons; auto.
Defined.

(** C10, as the claim has it, fails for 'ffill', which subtracts nothing:
    the exception comes from the addition, and the first row has its
    position as [window_start] by then. *)
Lemma set_window_ffill_raises_on_addition :
  ∃ self' r rest,
    set_window (30 * NS_PER_MIN) "ffill" Examples.night_reader
    = (self', Raise (TypeError OpAdd))
    ∧ data self' = Positional ((0, r) :: rest)
    ∧ window_start r = Some (IntCell 0)
    ∧ self' ≠ Examples.night_reader.
Proof. by repeat eexists. Qed.

(** *** [deidentify] *)

(** C3, as the code has it.  [deidentify] sets the subject to the value
    given when that is a string that is not empty and to 'xxxxxx'
    otherwise, and sets the value of every key of [metadata] to None.  The
    keys of [metadata] itself stay, in their order; the dicts that were
    their values are gone, and their keys with them.  The table is not
    touched. *)
Theorem deidentify_clears_top_level subject_id self :
  ∃ self',
    deidentify subject_id self = (self', Return tt)
    ∧ subject self' = match subject_id with
                      | Some s => if String.eqb s "" then "xxxxxx" else s
                      | None => "xxxxxx"
                      end
    ∧ (metadata self').*1 = (metadata self).*1
    ∧ (∀ k v, (k, v) ∈ metadata self' → v = PNone)
    ∧ key_paths (PDict (metadata self')) = (λ k, [k]) <$> (metadata self).*1
    ∧ data self' = data self
    ∧ valid_measurements self' = valid_measurements self.
Proof.
  destruct self as [sub vm df md].
  exists (mkReader (match subject_id with
                    | Some s => if String.eqb s "" then "xxxxxx" else s
                    | None => "xxxxxx"
                    end) vm df ((λ kv, (kv.1, PNone)) <$> md)).
  split; [|split; [done|split; [|split; [|split; [|done]]]]].
  - unfold deidentify, bind, get, set_subject, set_metadata.
    destruct subject_id as [s|]; [destruct (String.eqb s "")|]; done.
  - cbn [metadata]. rewrite <-list_fmap_compose. by apply list_fmap_ext.
  - cbn [metadata]. by intros k v (kv & [= _ ->] & _)%list_elem_of_fmap.
  - cbn [metadata]. induction md as [|[k v] md IH]; [done|].
    cbn in *. by rewrite IH.
Qed.

(** C3, as the claim has it, fails on the metadata that [__init__] builds:
    the keys of the nested dicts are not there after [deidentify]. *)
Lemma deidentify_drops_nested_keys :
  ∃ self',
    deidentify None Examples.night_reader = (self', Return tt)
    ∧ key_paths (PDict (metadata Examples.night_reader))
      = [ ["PATIENTINFO"]; ["PATIENTINFO"; "DOB"]; ["PATIENTINFO"; "RACE"];
          ["REPORTINFO"]; ["REPORTINFO"; "PHYSICIAN"]; ["REPORTINFO"; "NURSETECH"];
          ["REPORTINFO"; "STATUS"]; ["REPORTINFO"; "CALIPERSUMMARY"];
          ["REPORTINFO"; "CALIPERSUMMARY"; "COUNT"] ]
    ∧ metadata self' = [ ("PATIENTINFO", PNone); ("REPORTINFO", PNone) ]
    ∧ key_paths (PDict (metadata self')) = [ ["PATIENTINFO"]; ["REPORTINFO"] ]
    ∧ key_paths (PDict (metadata self')) ≠ key_paths (PDict (metadata Examples.night_reader)).
Proof. by repeat eexists. Qed.

(** *** [timeshift] by a duration *)

Lemma map_rows_compose f g df : map_rows f (map_rows g df) = map_rows (f ∘ g) df.
Proof.
  destruct df as [rows|rows]; cbn [map_rows]; f_equal; rewrite <-list_fmap_compose;
    apply list_fmap_ext; by intros ? [].
Qed.

Lemma map_rows_ext f g df : (∀ r, f r = g r) → map_rows f df = map_rows g df.
Proof.
  intros Hfg. destruct df as [rows|rows]; cbn [map_rows]; f_equal;
    apply list_fmap_ext; intros ? ?; [|done].
  intros. unfold prod_map. by rewrite Hfg.
Qed.

Lemma rounded_timeshift d self :
  timeshift (ByTimedelta d) self
  = (with_data (map_rows (λ r, rederive (set_timestamp (timestamp r + round_min d) r))
                         (data self)) self, Return tt).
Proof.
  destruct self as [sub vm df md].
  unfold timeshift, timeshift_once, bind, get, set_data, with_data. cbn.
  by rewrite map_rows_compose.
Qed.

Lemma round_min_is_multiple v : ∃ k, round_min v = k * NS_PER_MIN.
Proof. unfold round_min. cbv zeta. destruct (_ || _); eauto. Qed.

Lemma round_min_sum d1 d2 :
  round_min (round_min d1 + round_min d2) = round_min d1 + round_min d2.
Proof.
  destruct (round_min_is_multiple d1) as [k1 ->].
  destruct (round_min_is_multiple d2) as [k2 ->].
  rewrite <-Z.mul_add_distr_r. apply round_min_multiple.
Qed.

Lemma rounded_timeshift_twice d1 d2 self :
  (timeshift (ByTimedelta d1) ;; timeshift (ByTimedelta d2)) self
  = (with_data (map_rows (λ r, rederive (set_timestamp
                                 (timestamp r + (round_min d1 + round_min d2)) r))
                         (data self)) self, Return tt).
Proof.
  unfold bind at 1. rewrite rounded_timeshift, rounded_timeshift.
  destruct self as [sub vm df md]. unfold with_data. cbn.
  rewrite map_rows_compose. do 2 f_equal. apply map_rows_ext.
  intros r. unfold rederive, set_timestamp, compose. cbn. by rewrite Z.add_assoc.
Qed.
(** *** [timeshift] to an instant *)

(** On device B the anchored shift moves every row by the same duration. *)
Lemma anchored_timeshift_translates A self self' :
  timeshift (ToTimestamp A) self = (self', Return tt) →
  ∃ c, timestamp <$> frame_rows (data self')
       = (λ t, t + c) <$> (timestamp <$> frame_rows (data self)).
Proof.
  destruct self as [sub vm df md].
  unfold timeshift, timeshift_once, bind, get, lift, set_data, with_data. cbn.
  destruct (first_timestamp df) as [first|e] eqn:E; cbn; [|done].
  intros [= <-]. exists (round_min A - first). cbn.
  rewrite map_rows_compose. destruct df as [rows|rows]; cbn;
    rewrite <-!list_fmap_compose; apply list_fmap_ext.
  - intros _ [l r] _. cbn. lia.
  - intros _ r _. cbn. lia.
Qed.
End SpacelabsFacts.

(** ** Device A *)

Module EmpaticaFacts.
Import Clock Empatica.

Section Join.
Context {V : Type}.
Implicit Types (s : Table (cell V)) (l idx : list Z).








Lemma NoDup_date_range start freq periods :
  freq ≠ 0 → NoDup (date_range start freq periods).
Proof.
  intros Hfreq. unfold date_range. apply NoDup_fmap_2_strong; [|apply NoDup_seq].
  intros k1 k2 _ _ Heq. nia.
Qed.

Lemma _read_signal_well_indexed {A} (file : SignalFile A) (tbl : Table A) :
  file_period file ≠ 0 → _read_signal (Some file) = Some tbl → well_indexed tbl.
Proof.
  intros Hfreq [= <-]. split; cbn [index values].
  - unfold date_range. by rewrite length_fmap, length_seq.
  - by apply NoDup_date_range.
Qed.

Lemma well_indexed_column {A} (f : A → cell V) (tbl : Table A) :
  well_indexed tbl → well_indexed (column f tbl).
Proof. intros [Hlen Hnd]. split; cbn [column index values]; by rewrite ?length_fmap. Qed.



End Join.

Lemma survives_squeeze_column {V A} (f : A → cell V) (tbl : Table A) :
  survives_squeeze tbl → survives_squeeze (column f tbl).
Proof. done. Qed.

Lemma _read_signal_survives_squeeze {A} (file : SignalFile A) (tbl : Table A) :
  Invariants.tabular file → _read_signal (Some file) = Some tbl → survives_squeeze tbl.
Proof.
  intros Hrows [= <-]. unfold survives_squeeze, date_range. cbn [index].
  rewrite length_fmap, length_seq. exact Hrows.
Qed.

(** What [__init__] reads from signal files of two rows or more: tables
    with one label per row, no label twice, that [squeeze()] leaves as they
    are. *)
Lemma init_well_indexed {V} (dir : Directory V) :
  Invariants.readable dir →
  (∀ f, ACC_csv dir = Some f → file_period f ≠ 0) →
  (∀ f, BVP_csv dir = Some f → file_period f ≠ 0) →
  (∀ f, EDA_csv dir = Some f → file_period f ≠ 0) →
  (∀ f, HR_csv dir = Some f → file_period f ≠ 0) →
  (∀ f, TEMP_csv dir = Some f → file_period f ≠ 0) →
  Forall (λ c, well_indexed c.2 ∧ survives_squeeze c.2) (signal_columns (init dir)).
Proof.
  intros (Racc & Rbvp & Reda & Rhr & Rtemp) Hacc Hbvp Heda Hhr Htemp.
  destruct dir as [[acc|] [bvp|] [eda|] [hr|] [temp|] ibi tg];
    cbn -[column date_range] in *;
    repeat (constructor;
            [split;
             [first [ apply well_indexed_column | idtac ];
              eapply _read_signal_well_indexed; [|reflexivity]; eauto
             |first [ apply survives_squeeze_column | idtac ];
              eapply _read_signal_survives_squeeze; [|reflexivity]; eauto ] |]);
    constructor.
Qed.


Example joined_session :
  data Examples.session_reader
  = Some (mkJoined
            [ Examples.t0; Examples.t0 + 31250000; Examples.t0 + 62500000;
              Examples.t0 + 250000000;
              Examples.t0 + 10 * NS_PER_SEC; Examples.t0 + 11 * NS_PER_SEC ]
            (Some [ Some 1; Some 0; Some 1; None; None; None ])
            (Some [ Some 2; Some 2; Some 3; None; None; None ])
            (Some [ Some 63; Some 64; Some 62; None; None; None ])
            None
            (Some [ Some 5; None; None; Some 6; None; None ])
            (Some [ None; None; None; None; Some 71; Some 72 ])
            None).
Proof. vm_compute. reflexivity. Qed.

(** *** [timeshift] *)

Section Shift.
Context {V : Type}.
Implicit Types (self : EmpaticaReader V).

Lemma translate_translate d1 d2 l : translate d2 (translate d1 l) = translate (d1 + d2) l.
Proof.
  unfold translate. rewrite <-list_fmap_compose. apply list_fmap_ext.
  intros _ t _. simpl. lia.
Qed.

Lemma relative_timeshift d self :
  timeshift (ByTimedelta d) self
  = (with_dataframes (translate d)
       (with_tags (translate d)
          (with_start_times (fmap (λ start_time, start_time + d)) self)),
     Return tt).
Proof. done. Qed.

(** What a relative shift moves and what it leaves. *)
Lemma relative_timeshift_fields d self self' :
  timeshift (ByTimedelta d) self = (self', Return tt) →
  start_times self' = (λ t, t + d) <$> start_times self
  ∧ tags self' = translate d <$> tags self
  ∧ ACC self' = reindex (translate d) <$> ACC self
  ∧ BVP self' = reindex (translate d) <$> BVP self
  ∧ EDA self' = reindex (translate d) <$> EDA self
  ∧ HR self' = reindex (translate d) <$> HR self
  ∧ TEMP self' = reindex (translate d) <$> TEMP self
  ∧ data self' = reindex_joined (translate d) <$> data self
  ∧ IBI self' = IBI self.
Proof. rewrite relative_timeshift. by intros [= <-]. Qed.

Lemma relative_timeshift_twice d1 d2 self :
  (timeshift (ByTimedelta d1) ;; timeshift (ByTimedelta d2)) self
  = timeshift (ByTimedelta (d1 + d2)) self.
Proof.
  unfold bind. rewrite !relative_timeshift.
  destruct self as [st acc bvp eda hr temp ibi tg dt].
  unfold with_dataframes, with_tags, with_start_times, reindex, reindex_joined.
  cbn -[translate]. f_equal. f_equal.
  - rewrite <-map_fmap_compose. apply map_fmap_ext. intros _ t _. simpl. lia.
  - destruct acc; cbn -[translate]; by rewrite ?translate_translate.
  - destruct bvp; cbn -[translate]; by rewrite ?translate_translate.
  - destruct eda; cbn -[translate]; by rewrite ?translate_translate.
  - destruct hr; cbn -[translate]; by rewrite ?translate_translate.
  - destruct temp; cbn -[translate]; by rewrite ?translate_translate.
  - destruct tg; cbn -[translate]; by rewrite ?translate_translate.
  - destruct dt; cbn -[translate]; by rewrite ?translate_translate.
Qed.
End Shift.

(** C1.  In the session of [Examples.session] the heart rate starts ten
    seconds after the accelerometer.  The anchored shift moves the first
    instant of each table to the anchor, each by its own minimum: the
    accelerometer and the heart rate both start at the anchor afterwards,
    ten seconds closer than before, while [start_times] and the joined
    table, which take one minimum over their own entries, keep the ten
    seconds.  The first tag, two seconds into the session, lands on the
    anchor as well, and the IBI table is not moved at all. *)
Theorem anchored_timeshift_anchors_each_table :
  let A := 1500000000 * NS_PER_SEC in
  let t0 := Examples.t0 in
  let before := Examples.session_reader in
  ∃ after,
    timeshift (ToTimestamp A) before = (after, Return tt)
    ∧ index <$> ACC before = Some [ t0; t0 + 31250000; t0 + 62500000 ]
    ∧ index <$> HR before = Some [ t0 + 10 * NS_PER_SEC; t0 + 11 * NS_PER_SEC ]
    ∧ index <$> ACC after = Some [ A; A + 31250000; A + 62500000 ]
    ∧ index <$> HR after = Some [ A; A + NS_PER_SEC ]
    ∧ start_times after !! "ACC" = Some A
    ∧ start_times after !! "HR" = Some (A + 10 * NS_PER_SEC)
    ∧ joined_index <$> data after
      = Some [ A; A + 31250000; A + 62500000; A + 250000000;
               A + 10 * NS_PER_SEC; A + 11 * NS_PER_SEC ]
    ∧ tags before = Some [ t0 + 2 * NS_PER_SEC ]
    ∧ tags after = Some [ A ]
    ∧ IBI after = IBI before.
Proof.
  cbv zeta.
  exists (timeshift (ToTimestamp (1500000000 * NS_PER_SEC)) Examples.session_reader).1.
  repeat split; vm_compute; reflexivity.
Qed.

(** C2.  A relative shift by [d] moves [start_times] (the entry of 'IBI'
    among them), the tags and the tables of the five signals and of the
    join, and leaves the index of the IBI table where it was: the offsets
    that [_write_ibi] writes are off by [d] afterwards. *)
Theorem relative_timeshift_leaves_IBI :
  let d := - (400 * NS_PER_DAY) in
  let t0 := Examples.t0 in
  let before := Examples.session_reader in
  ∃ after,
    timeshift (ByTimedelta d) before = (after, Return tt)
    ∧ index <$> IBI before = Some [ t0 + 750000000; t0 + 1500000000 ]
    ∧ index <$> IBI after = Some [ t0 + 750000000; t0 + 1500000000 ]
    ∧ start_times before !! "IBI" = Some t0
    ∧ start_times after !! "IBI" = Some (t0 + d)
    ∧ ibi_offsets before = Return [ 750000000; 1500000000 ]
    ∧ ibi_offsets after = Return [ 750000000 - d; 1500000000 - d ]
    ∧ index <$> ACC after = Some [ t0 + d; t0 + 31250000 + d; t0 + 62500000 + d ]
    ∧ tags after = Some [ t0 + 2 * NS_PER_SEC + d ].
Proof.
  cbv zeta.
  exists (timeshift (ByTimedelta (- (400 * NS_PER_DAY))) Examples.session_reader).1.
  repeat split; vm_compute; reflexivity.
Qed.

End EmpaticaFacts.

(** ** Both devices *)

Lemma round_min_whole_minutes d1 d2 :
  d1 mod Clock.NS_PER_MIN = 0 → d2 mod Clock.NS_PER_MIN = 0 →
  Clock.round_min d1 + Clock.round_min d2 = Clock.round_min (d1 + d2).
Proof.
  intros H1 H2.
  apply Z_div_exact_full_2 in H1; [|done]. apply Z_div_exact_full_2 in H2; [|done].
  rewrite H1, H2 at 1. rewrite H1, H2 at 2.
  rewrite <-Z.mul_add_distr_l, !(Z.mul_comm Clock.NS_PER_MIN).
  by rewrite !ClockFacts.round_min_multiple, Z.mul_add_distr_r.
Qed.

(** C8, as the code has it.  On device A two relative shifts in a row are
    the one shift by the sum of their durations, for all durations.  On
    device B every shift is rounded to whole minutes on its own before it
    is applied: two shifts in a row are the one shift by the sum of the two
    rounded durations, and they are the one shift by the sum of the
    durations when rounding the sum gives the sum of the rounded
    durations. *)
Theorem relative_shifts_compose {V} (a : Empatica.EmpaticaReader V)
    (b : Spacelabs.SpacelabsReader) (d1 d2 : Z) :
  (Empatica.timeshift (ByTimedelta d1) ;; Empatica.timeshift (ByTimedelta d2)) a
  = Empatica.timeshift (ByTimedelta (d1 + d2)) a
  ∧ (Spacelabs.timeshift (ByTimedelta d1) ;; Spacelabs.timeshift (ByTimedelta d2)) b
    = Spacelabs.timeshift (ByTimedelta (Clock.round_min d1 + Clock.round_min d2)) b
  ∧ (Clock.round_min d1 + Clock.round_min d2 = Clock.round_min (d1 + d2) →
     (Spacelabs.timeshift (ByTimedelta d1) ;; Spacelabs.timeshift (ByTimedelta d2)) b
     = Spacelabs.timeshift (ByTimedelta (d1 + d2)) b).
Proof.
  split; [apply EmpaticaFacts.relative_timeshift_twice|]. split.
  - rewrite SpacelabsFacts.rounded_timeshift_twice, SpacelabsFacts.rounded_timeshift.
    by rewrite SpacelabsFacts.round_min_sum.
  - intros Hround.
    rewrite SpacelabsFacts.rounded_timeshift_twice, SpacelabsFacts.rounded_timeshift.
    by rewrite Hround.
Qed.

Lemma relative_shifts_compose_minutes :
  let d1 := 2 * Clock.NS_PER_MIN in
  let d2 := 3 * Clock.NS_PER_MIN in
  let a := Examples.session_reader in
  let b := Examples.night_reader in
  Clock.round_min d1 + Clock.round_min d2 = Clock.round_min (d1 + d2)
  ∧ (Empatica.timeshift (ByTimedelta d1) ;; Empatica.timeshift (ByTimedelta d2)) a
    = Empatica.timeshift (ByTimedelta (d1 + d2)) a
  ∧ (Spacelabs.timeshift (ByTimedelta d1) ;; Spacelabs.timeshift (ByTimedelta d2)) b
    = Spacelabs.timeshift (ByTimedelta (Clock.round_min d1 + Clock.round_min d2)) b
  ∧ (Spacelabs.timeshift (ByTimedelta d1) ;; Spacelabs.timeshift (ByTimedelta d2)) b
    = Spacelabs.timeshift (ByTimedelta (d1 + d2)) b.
Proof.
  cbv zeta.
  destruct (relative_shifts_compose Examples.session_reader Examples.night_reader
              (2 * Clock.NS_PER_MIN) (3 * Clock.NS_PER_MIN)) as (HA & HB & HC).
  split; [reflexivity|]. split; [exact HA|]. split; [exact HB|].
  apply HC. reflexivity.
Defined.

(** C8, as the claim has it, fails on device B: two shifts by forty seconds
    move the readings by two minutes, one shift by eighty seconds moves
    them by one. *)
Lemma relative_shifts_rounded_one_by_one :
  let d := 40 * Clock.NS_PER_SEC in
  let stamps (run : Spacelabs.SpacelabsReader * outcome unit) :=
    Spacelabs.timestamp <$> Spacelabs.frame_rows (Spacelabs.data run.1) in
  let before := stamps (Examples.night_reader, Return tt) in
  stamps ((Spacelabs.timeshift (ByTimedelta d) ;; Spacelabs.timeshift (ByTimedelta d))
            Examples.night_reader)
  = (λ t, t + 2 * Clock.NS_PER_MIN) <$> before
  ∧ stamps (Spacelabs.timeshift (ByTimedelta (d + d)) Examples.night_reader)
    = (λ t, t + Clock.NS_PER_MIN) <$> before
  ∧ (Spacelabs.timeshift (ByTimedelta d) ;; Spacelabs.timeshift (ByTimedelta d))
      Examples.night_reader
    ≠ Spacelabs.timeshift (ByTimedelta (d + d)) Examples.night_reader.
Proof.
  cbv zeta. split; [vm_compute; reflexivity|]. split; [vm_compute; reflexivity|].
  intros H.
  apply (f_equal (λ run : Spacelabs.SpacelabsReader * outcome unit,
                    Spacelabs.timestamp <$> Spacelabs.frame_rows (Spacelabs.data run.1)))
    in H.
  vm_compute in H. discriminate H.
Qed.

(** * Further properties *)

(** ** The clock *)

Module ClockMore.
Import Clock ClockFacts Invariants.

Ltac clock_constants :=
  cbv [NS_PER_DAY NS_PER_HOUR NS_PER_MIN NS_PER_SEC NS_PER_US] in *.

Lemma time_ns_range t : valid_time t → 0 ≤ time_ns t < NS_PER_DAY.
Proof. intros (Hh & Hm & Hs & Hu). unfold time_ns. clock_constants. lia. Qed.

Lemma time_compare_ns p c :
  valid_time p → valid_time c → time_compare p c = (time_ns p ?= time_ns c).
Proof.
  intros (Hh & Hm & Hs & Hu) (Hh' & Hm' & Hs' & Hu').
  unfold time_compare, time_ns. clock_constants. symmetry.
  destruct (Z.compare_spec (hour p) (hour c));
    [destruct (Z.compare_spec (minute p) (minute c));
       [destruct (Z.compare_spec (second p) (second c));
          [destruct (Z.compare_spec (microsecond p) (microsecond c))|..]|..]|..];
    first [ apply Z.compare_eq_iff | apply Z.compare_lt_iff | apply Z.compare_gt_iff ];
    lia.
Qed.

Lemma time_ns_inj p c : valid_time p → valid_time c → time_ns p = time_ns c → p = c.
Proof.
  intros (Hh & Hm & Hs & Hu) (Hh' & Hm' & Hs' & Hu'). destruct p, c.
  unfold time_ns. cbn in *. clock_constants. intros Heq.
  f_equal; lia.
Qed.

Lemma date_of_combine d t : valid_time t → date_of (combine d t) = d.
Proof.
  intros Ht%time_ns_range. unfold date_of, combine.
  rewrite Z.add_comm, Z.div_add by done. rewrite Z.div_small by done. lia.
Qed.

Lemma time_of_combine d t : valid_time t → time_of (combine d t) = t.
Proof.
  intros Hv. pose proof (time_ns_range _ Hv) as Hr. unfold time_of, combine.
  rewrite Z.add_comm, Z.mod_add by done. rewrite Z.mod_small by done.
  destruct Hv as (Hh & Hm & Hs & Hu). destruct t as [h m s u]. unfold time_ns in *.
  cbn in *. clock_constants. f_equal; Z.div_mod_to_equations; lia.
Qed.

Lemma combine_whole_microseconds d t : combine d t mod NS_PER_US = 0.
Proof.
  unfold combine, time_ns. clock_constants. Z.div_mod_to_equations. lia.
Qed.

Lemma combine_date_time_of ts :
  ts mod NS_PER_US = 0 → combine (date_of ts) (time_of ts) = ts.
Proof.
  unfold combine, date_of, time_of, time_ns. cbn. clock_constants.
  intros H. Z.div_mod_to_equations. lia.
Qed.

Lemma round_min_whole_microseconds v : round_min v mod NS_PER_US = 0.
Proof.
  unfold round_min. cbv zeta. clock_constants.
  destruct (_ || _); Z.div_mod_to_equations; lia.
Qed.

End ClockMore.
(** ** Device B *)

Module SpacelabsMore.
Import Clock ClockFacts ClockMore Invariants Spacelabs SpacelabsFacts.

(** *** [__init__] *)

Lemma length_adjust_dates_from rest : ∀ current_date previous,
  length (adjust_dates_from current_date previous rest) = length rest.
Proof. induction rest as [|t rest IH]; intros; cbn; [done|]. by rewrite IH. Qed.

Lemma length_adjust_dates base_date times :
  times ≠ [] → length (adjust_dates base_date times) = length times.
Proof. destruct times; [done|]. intros _. cbn. by rewrite length_adjust_dates_from. Qed.

Lemma fmap_zip_with_project {A B C D} (f : A → B → C) (g : C → D) (h : B → D)
    (l : list A) (k : list B) :
  (∀ x y, g (f x y) = h y) → (length k ≤ length l)%nat →
  g <$> zip_with f l k = h <$> k.
Proof.
  intros Hgf. revert l. induction k as [|y k IH]; intros [|x l] Hlen; cbn in *;
    try done; try lia.
  rewrite Hgf, IH; [done|lia].
Qed.

Lemma imap_labels_fst {A} (l : list A) : ∀ (label : nat → Z),
  (imap (λ i r, (label i, r)) l).*1 = label <$> seq 0 (length l).
Proof.
  induction l as [|a l IH]; intros label; [done|].
  cbn. f_equal. etransitivity; [exact (IH (label ∘ S))|].
  by rewrite <-fmap_S_seq, <-list_fmap_compose.
Qed.

(** X1.  For a file whose table has a row, [__init__] returns a reader
    with one row per line of the table, in the order of the file, labelled
    0, 1, 2, ...; the times of day, the measurements and the error codes
    are those of the file, and no row has a window. *)
Theorem init_one_row_per_line f :
  abp_rows f ≠ [] →
  ∃ self rows,
    init f = Return self ∧ data self = Positional rows
    ∧ rows.*1 = Z.of_nat <$> seq 0 (length (abp_rows f))
    ∧ time <$> rows.*2 = raw_time <$> abp_rows f
    ∧ SYS <$> rows.*2 = raw_SYS <$> abp_rows f
    ∧ DIA <$> rows.*2 = raw_DIA <$> abp_rows f
    ∧ error <$> rows.*2 = raw_error <$> abp_rows f
    ∧ Forall (λ r, window_start r = None ∧ window_end r = None) rows.*2
    ∧ subject self = abp_subject f
    ∧ valid_measurements self = abp_valid_measurements f.
Proof.
  intros Hne.
  assert (Hinit : init f
    = Return (mkReader (abp_subject f) (abp_valid_measurements f)
                (Positional (imap (λ i r, (Z.of_nat i, r))
                   (zip_with make_row
                      (adjust_dates (abp_base_date f) (raw_time <$> abp_rows f))
                      (abp_rows f))))
                (read_metadata f))).
  { unfold init. by destruct (abp_rows f). }
  assert (Hlen : (length (abp_rows f)
                  ≤ length (adjust_dates (abp_base_date f) (raw_time <$> abp_rows f)))%nat).
  { rewrite length_adjust_dates, length_fmap; [done|]. by destruct (abp_rows f). }
  eexists _, _. split; [exact Hinit|]. split; [done|]. cbn [subject valid_measurements].
  rewrite imap_labels_fst, imap_labels, length_zip_with_r_eq
    by (rewrite length_adjust_dates, length_fmap; [done|]; by destruct (abp_rows f)).
  split; [done|].
  split; [by apply fmap_zip_with_project|].
  split; [by apply fmap_zip_with_project|].
  split; [by apply fmap_zip_with_project|].
  split; [by apply fmap_zip_with_project|].
  split; [|done].
  apply Forall_forall. by intros r (d & raw' & -> & _)%elem_of_zip_with.
Qed.

Lemma init_one_row_per_line_night :
  abp_rows Examples.night ≠ [] ∧
  ∃ self rows,
    init Examples.night = Return self ∧ data self = Positional rows
    ∧ rows.*1 = [0; 1; 2; 3; 4]
    ∧ error <$> rows.*2 = [None; Some "EB"; None; None; Some "AB"].
Proof.
  split; [done|].
  destruct (init_one_row_per_line Examples.night)
    as (self & rows & Hinit & Hdata & Hidx & _ & _ & _ & Herr & _); [done|].
  exists self, rows. split; [exact Hinit|]. split; [exact Hdata|].
  split; [exact Hidx|exact Herr].
Defined.

Lemma init_shape f self :
  init f = Return self →
  ∃ first rest, data self = Positional ((0, first) :: rest).
Proof.
  unfold init. destruct (abp_rows f) as [|raw raws]; [done|].
  intros [= <-]. cbn. eauto.
Qed.

Lemma init_row_valid f self i r :
  init f = Return self →
  Forall (λ raw, valid_time (raw_time raw)) (abp_rows f) →
  frame_rows (data self) !! i = Some r →
  valid_time (time r).
Proof.
  intros Hinit Hvalid Hr.
  destruct (init_row_lookup _ _ _ _ Hinit Hr) as (raw & Hraw & _ & -> & _).
  by eapply (proj1 (Forall_lookup _ _)) in Hvalid.
Qed.

Lemma init_timestamps_step f self i previous current :
  init f = Return self →
  Forall (λ raw, valid_time (raw_time raw)) (abp_rows f) →
  frame_rows (data self) !! i = Some previous →
  frame_rows (data self) !! S i = Some current →
  timestamp previous ≤ timestamp current
  ∧ (timestamp previous = timestamp current ↔ time previous = time current).
Proof.
  intros Hinit Hvalid Hp Hc.
  pose proof (init_row_valid _ _ _ _ Hinit Hvalid Hp) as Hvp.
  pose proof (init_row_valid _ _ _ _ Hinit Hvalid Hc) as Hvc.
  destruct (init_row_lookup _ _ _ _ Hinit Hp) as (rp & Hrp & Hdp & Htp & Hsp).
  destruct (init_row_lookup _ _ _ _ Hinit Hc) as (rc & Hrc & Hdc & Htc & Hsc).
  assert (Hstep : date current
                  = if time_lt (time current) (time previous)
                    then date previous + 1 else date previous).
  { eapply (adjust_dates_step _ (raw_time <$> abp_rows f) i); eauto.
    - by rewrite list_lookup_fmap, Hrp, Htp.
    - by rewrite list_lookup_fmap, Hrc, Htc. }
  rewrite Hsp, Hsc, Hstep. unfold combine, time_lt.
  rewrite (time_compare_ns _ _ Hvc Hvp).
  pose proof (time_ns_range _ Hvp). pose proof (time_ns_range _ Hvc).
  destruct (Z.compare_spec (time_ns (time current)) (time_ns (time previous)))
    as [Heq|Hlt|Hgt].
  - split; [lia|]. split; [intros _; symmetry; by apply time_ns_inj|lia].
  - unfold NS_PER_DAY, NS_PER_HOUR, NS_PER_MIN, NS_PER_SEC in *.
    split; [lia|]. split; [lia|]. intros Heq. rewrite Heq in Hlt. lia.
  - split; [lia|]. split; [lia|]. intros Heq. rewrite Heq in Hgt. lia.
Qed.

(** X2.  When the times of day of the file are times of day (hours below
    24, minutes below 60), the timestamps that [__init__] builds never
    decrease from a row to the next, and two rows in a row have the same
    timestamp exactly when they have the same time of day. *)
Theorem init_timestamps_in_order f self i previous current :
  init f = Return self →
  Forall (λ raw, valid_time (raw_time raw)) (abp_rows f) →
  frame_rows (data self) !! i = Some previous →
  frame_rows (data self) !! S i = Some current →
  timestamp previous ≤ timestamp current
  ∧ (timestamp previous = timestamp current ↔ time previous = time current).
Proof. apply init_timestamps_step. Qed.

Lemma init_timestamps_in_order_night :
  init Examples.night = Return Examples.night_reader ∧
  Forall (λ raw, valid_time (raw_time raw)) (abp_rows Examples.night) ∧
  ∃ previous current,
    frame_rows (data Examples.night_reader) !! 2%nat = Some previous
    ∧ frame_rows (data Examples.night_reader) !! 3%nat = Some current
    ∧ timestamp previous ≤ timestamp current
    ∧ (timestamp previous = timestamp current ↔ time previous = time current).
Proof.
  assert (Hvalid : Forall (λ raw, valid_time (raw_time raw)) (abp_rows Examples.night)).
  { repeat constructor; cbn; lia. }
  split; [reflexivity|]. split; [exact Hvalid|].
  eexists _, _. split; [reflexivity|]. split; [reflexivity|].
  apply (init_timestamps_in_order Examples.night Examples.night_reader 2);
    [reflexivity|exact Hvalid|reflexivity|reflexivity].
Defined.

(** *** [timeshift] to an instant *)

Lemma least_first (l : list Z) : ∀ x0,
  (∀ i a b, (x0 :: l) !! i = Some a → (x0 :: l) !! S i = Some b → a ≤ b) →
  Forall (λ x, x0 ≤ x) l.
Proof.
  induction l as [|a l IH]; intros x0 Hchain; [constructor|].
  assert (x0 ≤ a) by (by apply (Hchain 0%nat)).
  constructor; [done|].
  eapply Forall_impl; [apply (IH a)|intros; cbn in *; lia].
  intros i u v Hu Hv. by apply (Hchain (S i)).
Qed.

Lemma anchored_shift_run A self first :
  first_timestamp (data self) = Return first →
  timeshift (ToTimestamp A) self
  = (with_data (map_rows (λ r, rederive (set_timestamp
                                 (round_min A + (timestamp r - first)) r))
                         (data self)) self, Return tt).
Proof.
  destruct self as [sub vm df md]. cbn [data]. intros Hfirst.
  unfold timeshift, timeshift_once, bind, get, lift, set_data, with_data. cbn.
  rewrite Hfirst. cbn. by rewrite map_rows_compose.
Qed.

Lemma anchored_shift_raise A self e :
  first_timestamp (data self) = Raise e →
  timeshift (ToTimestamp A) self = (self, Raise e).
Proof.
  destruct self as [sub vm df md]. cbn [data]. intros Hfirst.
  unfold timeshift, timeshift_once, bind, get, lift, set_data, with_data. cbn.
  by rewrite Hfirst.
Qed.

Lemma timestamps_map_rows f df :
  timestamp <$> frame_rows (map_rows f df) = (timestamp ∘ f) <$> frame_rows df.
Proof.
  destruct df as [rows|rows]; cbn; rewrite <-!list_fmap_compose; [|done].
  apply list_fmap_ext. by intros _ [l r] _.
Qed.

Lemma anchored_shift_fresh f self A :
  init f = Return self →
  Forall (λ raw, valid_time (raw_time raw)) (abp_rows f) →
  ∃ self' first,
    timeshift (ToTimestamp A) self = (self', Return tt)
    ∧ head (timestamp <$> frame_rows (data self)) = Some first
    ∧ timestamp <$> frame_rows (data self')
      = (λ t, round_min A + (t - first)) <$> (timestamp <$> frame_rows (data self))
    ∧ head (timestamp <$> frame_rows (data self')) = Some (round_min A)
    ∧ Forall (λ t, round_min A ≤ t) (timestamp <$> frame_rows (data self')).
Proof.
  intros Hinit Hvalid.
  destruct (init_shape _ _ Hinit) as (r0 & rest & Hdata).
  assert (Hfirst : first_timestamp (data self) = Return (timestamp r0)).
  { by rewrite Hdata. }
  eexists _, (timestamp r0). split; [by apply anchored_shift_run|].
  cbn [data with_data]. rewrite timestamps_map_rows.
  assert (Hlist : frame_rows (data self) = r0 :: rest.*2) by (by rewrite Hdata).
  split; [by rewrite Hlist|]. split.
  { rewrite <-list_fmap_compose. by apply list_fmap_ext. }
  rewrite Hlist. cbn [fmap list_fmap head compose timestamp rederive set_timestamp].
  split; [f_equal; lia|].
  assert (Hleast : Forall (λ t, timestamp r0 ≤ t) (timestamp <$> rest.*2)).
  { apply least_first. intros i a b Ha Hb.
    change (timestamp r0 :: (timestamp <$> rest.*2))
      with (timestamp <$> (r0 :: rest.*2)) in Ha, Hb.
    rewrite <-Hlist in Ha, Hb. rewrite list_lookup_fmap in Ha, Hb.
    destruct (frame_rows (data self) !! i) as [ra|] eqn:Hra; [|done].
    destruct (frame_rows (data self) !! S i) as [rb|] eqn:Hrb; [|done].
    cbn in Ha, Hb. injection Ha as <-. injection Hb as <-.
    by destruct (init_timestamps_step _ _ _ _ _ Hinit Hvalid Hra Hrb). }
  constructor; [lia|].
  rewrite Forall_fmap in Hleast |- *.
  eapply Forall_impl; [exact Hleast|]. intros r Hr. cbn in *. lia.
Qed.

(** X3.  For a reader fresh from [__init__] (with times of day that are
    times of day), the shift to an instant [A] returns and is one
    translation of all rows: the first row, which is the earliest, lands on
    [A] rounded to the minute, and every row keeps its distance to it. *)
Theorem anchored_shift_device_B f self A :
  init f = Return self →
  Forall (λ raw, valid_time (raw_time raw)) (abp_rows f) →
  ∃ self' first,
    timeshift (ToTimestamp A) self = (self', Return tt)
    ∧ head (timestamp <$> frame_rows (data self)) = Some first
    ∧ timestamp <$> frame_rows (data self')
      = (λ t, round_min A + (t - first)) <$> (timestamp <$> frame_rows (data self))
    ∧ head (timestamp <$> frame_rows (data self')) = Some (round_min A)
    ∧ Forall (λ t, round_min A ≤ t) (timestamp <$> frame_rows (data self')).
Proof. apply anchored_shift_fresh. Qed.

Lemma anchored_shift_device_B_night :
  let A := 1500000000 * NS_PER_SEC + 7 in
  init Examples.night = Return Examples.night_reader ∧
  Forall (λ raw, valid_time (raw_time raw)) (abp_rows Examples.night) ∧
  ∃ self' first,
    timeshift (ToTimestamp A) Examples.night_reader = (self', Return tt)
    ∧ head (timestamp <$> frame_rows (data Examples.night_reader)) = Some first
    ∧ timestamp <$> frame_rows (data self')
      = (λ t, round_min A + (t - first))
        <$> (timestamp <$> frame_rows (data Examples.night_reader))
    ∧ head (timestamp <$> frame_rows (data self')) = Some (round_min A)
    ∧ Forall (λ t, round_min A ≤ t) (timestamp <$> frame_rows (data self')).
Proof.
  cbv zeta.
  assert (Hvalid : Forall (λ raw, valid_time (raw_time raw)) (abp_rows Examples.night)).
  { repeat constructor; cbn; lia. }
  split; [reflexivity|]. split; [exact Hvalid|].
  apply (anchored_shift_device_B Examples.night); [reflexivity|exact Hvalid].
Defined.

(** *** [drop_EB] *)

Lemma init_row_of f self i r :
  init f = Return self →
  frame_rows (data self) !! i = Some r →
  ∃ d raw, abp_rows f !! i = Some raw ∧ r = make_row d raw.
Proof.
  intros Hinit. rewrite (init_rows _ _ Hinit).
  intros (d & raw & -> & Hd & Hraw)%lookup_zip_with_Some. eauto.
Qed.

Lemma not_EB_spec r : not_EB r = true ↔ error r ≠ Some "EB".
Proof.
  unfold not_EB. rewrite negb_true_iff, bool_decide_eq_false. done.
Qed.

Lemma filter_none {A} (P : A → Prop) `{∀ x, Decision (P x)} (l : list A) :
  Forall (λ x, ¬ P x) l → filter P l = [].
Proof.
  induction 1 as [|x l Hx _ IH]; [done|]. by rewrite filter_cons_False.
Qed.

Lemma filter_again {A} (P : A → Prop) `{∀ x, Decision (P x)} (l : list A) :
  filter P (filter P l) = filter P l.
Proof.
  induction l as [|x l IH]; [done|]. destruct (decide (P x)).
  - rewrite !filter_cons_True by done. by rewrite IH.
  - by rewrite !filter_cons_False.
Qed.

Lemma with_data_same self : with_data (data self) self = self.
Proof. by destruct self. Qed.

Lemma drop_EB_timestamped self rows :
  data self = Timestamped rows →
  drop_EB self
  = (with_data (Timestamped (filter (λ r, not_EB r = true) rows)) self,
     Raise (KeyError "timestamp")).
Proof.
  intros Hdata. destruct self as [sub vm df md]. cbn in Hdata. subst df.
  done.
Qed.

Lemma drop_EB_fresh f self :
  init f = Return self →
  ∃ kept rows,
    drop_EB self = (kept, Return tt)
    ∧ data kept = Timestamped rows
    ∧ rows `sublist_of` frame_rows (data self)
    ∧ (∀ r, r ∈ rows ↔ r ∈ frame_rows (data self) ∧ error r ≠ Some "EB")
    ∧ subject kept = subject self
    ∧ valid_measurements kept = valid_measurements self
    ∧ metadata kept = metadata self
    ∧ drop_EB kept = (kept, Raise (KeyError "timestamp")).
Proof.
  intros Hinit. destruct (init_positional _ _ Hinit) as [rows Hdata].
  eexists _, _. split; [by apply drop_EB_positional|]. split; [done|].
  rewrite Hdata. cbn [frame_rows]. split; [apply sublist_filter|].
  split.
  { intros r. rewrite list_elem_of_filter, not_EB_spec. tauto. }
  split; [done|]. split; [done|]. split; [done|].
  erewrite drop_EB_timestamped by done. cbn. by rewrite filter_again.
Qed.

(** X4.  On a reader fresh from [__init__], [drop_EB] returns with the
    table keyed by timestamp, holding exactly the rows whose error code is
    not 'EB', unchanged and in their order; subject and metadata stay.  A
    second [drop_EB] raises a KeyError, the column 'timestamp' being the
    index by then, and changes nothing. *)
Theorem drop_EB_once f self :
  init f = Return self →
  ∃ kept rows,
    drop_EB self = (kept, Return tt)
    ∧ data kept = Timestamped rows
    ∧ rows `sublist_of` frame_rows (data self)
    ∧ (∀ r, r ∈ rows ↔ r ∈ frame_rows (data self) ∧ error r ≠ Some "EB")
    ∧ subject kept = subject self
    ∧ valid_measurements kept = valid_measurements self
    ∧ metadata kept = metadata self
    ∧ drop_EB kept = (kept, Raise (KeyError "timestamp")).
Proof. apply drop_EB_fresh. Qed.

Lemma drop_EB_once_night :
  init Examples.night = Return Examples.night_reader ∧
  ∃ kept rows,
    drop_EB Examples.night_reader = (kept, Return tt)
    ∧ data kept = Timestamped rows
    ∧ rows `sublist_of` frame_rows (data Examples.night_reader)
    ∧ (∀ r, r ∈ rows ↔ r ∈ frame_rows (data Examples.night_reader)
                        ∧ error r ≠ Some "EB")
    ∧ subject kept = subject Examples.night_reader
    ∧ valid_measurements kept = valid_measurements Examples.night_reader
    ∧ metadata kept = metadata Examples.night_reader
    ∧ drop_EB kept = (kept, Raise (KeyError "timestamp")).
Proof.
  split; [reflexivity|]. apply (drop_EB_once Examples.night). reflexivity.
Defined.

(** X5.  When every row of the file is an 'EB' error, [drop_EB] leaves an
    empty table; the shift to an instant then raises an IndexError and
    changes nothing, while a shift by a duration returns. *)
Theorem anchored_shift_of_empty_table f self A :
  init f = Return self →
  Forall (λ raw, raw_error raw = Some "EB") (abp_rows f) →
  ∃ kept,
    drop_EB self = (kept, Return tt)
    ∧ data kept = Timestamped []
    ∧ timeshift (ToTimestamp A) kept = (kept, Raise IndexError)
    ∧ ∀ d, timeshift (ByTimedelta d) kept = (kept, Return tt).
Proof.
  intros Hinit Hall. destruct (init_positional _ _ Hinit) as [rows Hdata].
  assert (Hnone : filter (λ r, not_EB r = true) rows.*2 = []).
  { apply filter_none. apply Forall_lookup. intros i r Hr.
    assert (Hr' : frame_rows (data self) !! i = Some r) by (by rewrite Hdata).
    destruct (init_row_of _ _ _ _ Hinit Hr') as (d & raw & Hraw & ->).
    rewrite not_EB_spec. intros Hne. apply Hne.
    exact (proj1 (Forall_lookup _ _) Hall _ _ Hraw). }
  eexists. split; [by apply drop_EB_positional|]. rewrite Hnone.
  split; [done|]. split; [by apply anchored_shift_raise|].
  intros d. rewrite rounded_timeshift. cbn. by destruct self.
Qed.

Lemma anchored_shift_of_empty_table_failed_night :
  init MoreExamples.failed_night = Return MoreExamples.failed_reader ∧
  Forall (λ raw, raw_error raw = Some "EB") (abp_rows MoreExamples.failed_night) ∧
  ∃ kept,
    drop_EB MoreExamples.failed_reader = (kept, Return tt)
    ∧ data kept = Timestamped []
    ∧ timeshift (ToTimestamp Examples.t0) kept = (kept, Raise IndexError)
    ∧ ∀ d, timeshift (ByTimedelta d) kept = (kept, Return tt).
Proof.
  assert (Hall : Forall (λ raw, raw_error raw = Some "EB")
                        (abp_rows MoreExamples.failed_night)).
  { by repeat constructor. }
  split; [reflexivity|]. split; [exact Hall|].
  apply (anchored_shift_of_empty_table MoreExamples.failed_night);
    [reflexivity|exact Hall].
Defined.

End SpacelabsMore.
Module SpacelabsShifts.
Import Clock ClockFacts ClockMore Invariants Spacelabs SpacelabsFacts SpacelabsMore.

Lemma with_data_with_data a b self : with_data a (with_data b self) = with_data a self.
Proof. done. Qed.

Lemma rederive_rederive r : rederive (rederive r) = rederive r.
Proof. done. Qed.

Lemma first_timestamp_elem df t :
  first_timestamp df = Return t → t ∈ timestamp <$> frame_rows df.
Proof.
  destruct df as [rows|rows]; cbn.
  - destruct (list_find _ _) as [[i [l r]]|] eqn:Hfind; [|done].
    intros [= <-]. apply list_find_Some in Hfind as (Hi & _ & _).
    apply list_elem_of_fmap. exists r. split; [done|].
    apply list_elem_of_fmap. exists (l, r). split; [done|].
    by eapply list_elem_of_lookup_2.
  - destruct rows as [|r rows]; [done|]. intros [= <-]. cbn. left.
Qed.

Lemma round_min_opp_round v : round_min (- round_min v) = - round_min v.
Proof.
  destruct (SpacelabsFacts.round_min_is_multiple v) as [k ->].
  rewrite <-Z.mul_opp_l. apply round_min_multiple.
Qed.

(** Every [timeshift] that returns moves all rows by one duration. *)
Lemma timeshift_effect shift self self' o :
  timeshift shift self = (self', o) →
  (∃ c, o = Return tt
        ∧ self' = with_data (map_rows (λ r, rederive (set_timestamp (timestamp r + c) r))
                                      (data self)) self
        ∧ (Forall (λ t, t mod NS_PER_US = 0) (timestamp <$> frame_rows (data self)) →
           c mod NS_PER_US = 0))
  ∨ (∃ e, o = Raise e ∧ self' = self).
Proof.
  destruct shift as [drawn|A|d|].
  - intros Hrun. left. exists (- round_min drawn).
    unfold timeshift in Hrun. unfold bind at 1 in Hrun.
    change (timeshift_once (ByTimedelta (- round_min drawn)) self)
      with (timeshift (ByTimedelta (- round_min drawn)) self) in Hrun.
    rewrite rounded_timeshift, round_min_opp_round in Hrun.
    destruct self as [sub vm df md].
    unfold timeshift_once, bind, get, ret, set_data, with_data in Hrun. cbn in Hrun.
    injection Hrun as <- <-. split; [done|]. split.
    + unfold with_data. cbn. by rewrite map_rows_compose.
    + intros _. pose proof (round_min_whole_microseconds drawn).
      clock_constants. Z.div_mod_to_equations. lia.
  - destruct (first_timestamp (data self)) as [first|e] eqn:Hfirst.
    + rewrite (anchored_shift_run _ _ _ Hfirst). intros [= <- <-]. left.
      exists (round_min A - first). split; [done|]. split.
      * f_equal. apply map_rows_ext. intros r. do 2 f_equal. lia.
      * intros Hall. apply first_timestamp_elem in Hfirst.
        rewrite Forall_forall in Hall. specialize (Hall _ Hfirst).
        pose proof (round_min_whole_microseconds A).
        clock_constants. Z.div_mod_to_equations. lia.
    + rewrite (anchored_shift_raise _ _ _ Hfirst). intros [= <- <-]. right. eauto.
  - rewrite rounded_timeshift. intros [= <- <-]. left. exists (round_min d).
    split; [done|]. split; [done|]. intros _. apply round_min_whole_microseconds.
  - destruct self as [sub vm df md].
    unfold timeshift, timeshift_once, bind, get, ret, set_data, with_data. cbn.
    intros [= <- <-]. left. exists 0. split; [done|]. split; [|done].
    f_equal. apply map_rows_ext. intros r. destruct r. unfold rederive, set_timestamp.
    cbn. by rewrite Z.add_0_r.
Qed.
Lemma frame_rows_map_rows f df : frame_rows (map_rows f df) = f <$> frame_rows df.
Proof.
  destruct df as [rows|rows]; cbn; [|done].
  rewrite <-!list_fmap_compose. apply list_fmap_ext. by intros _ [l r] _.
Qed.

(** X6.  In each of its modes a [timeshift] that returns moves the
    timestamps of all rows by one and the same duration and reads date and
    time of every row back from the new timestamp.  It keeps the rows in
    their number and order and leaves the measurements, the error codes,
    the subject and the metadata as they are.  A [timeshift] that raises
    changes nothing. *)
Theorem timeshift_translates_rows shift self self' o :
  timeshift shift self = (self', o) →
  (∃ c,
     o = Return tt
     ∧ timestamp <$> frame_rows (data self')
       = (λ t, t + c) <$> (timestamp <$> frame_rows (data self))
     ∧ Forall (λ r, date r = date_of (timestamp r) ∧ time r = time_of (timestamp r))
              (frame_rows (data self'))
     ∧ (λ r, (SYS r, DIA r, x_ r, y_ r, z_ r, error r)) <$> frame_rows (data self')
       = (λ r, (SYS r, DIA r, x_ r, y_ r, z_ r, error r)) <$> frame_rows (data self)
     ∧ subject self' = subject self
     ∧ valid_measurements self' = valid_measurements self
     ∧ metadata self' = metadata self)
  ∨ (∃ e, o = Raise e ∧ self' = self).
Proof.
  intros [(c & -> & -> & _)|(e & -> & ->)]%timeshift_effect; [left|right; eauto].
  exists c. split; [done|]. cbn [data with_data subject valid_measurements metadata].
  rewrite frame_rows_map_rows, <-!list_fmap_compose.
  split; [done|]. split; [|done].
  apply Forall_fmap, Forall_forall. by intros r _.
Qed.

Lemma timeshift_translates_rows_night :
  let run := timeshift (ToTimestamp Examples.t0) Examples.night_kept in
  let self' := run.1 in
  run = (self', run.2) ∧
  ((∃ c,
      run.2 = Return tt
      ∧ timestamp <$> frame_rows (data self')
        = (λ t, t + c) <$> (timestamp <$> frame_rows (data Examples.night_kept))
      ∧ Forall (λ r, date r = date_of (timestamp r) ∧ time r = time_of (timestamp r))
               (frame_rows (data self'))
      ∧ (λ r, (SYS r, DIA r, x_ r, y_ r, z_ r, error r)) <$> frame_rows (data self')
        = (λ r, (SYS r, DIA r, x_ r, y_ r, z_ r, error r))
          <$> frame_rows (data Examples.night_kept)
      ∧ subject self' = subject Examples.night_kept
      ∧ valid_measurements self' = valid_measurements Examples.night_kept
      ∧ metadata self' = metadata Examples.night_kept)
   ∨ (∃ e, run.2 = Raise e ∧ self' = Examples.night_kept)).
Proof.
  cbv zeta. split; [reflexivity|].
  apply (timeshift_translates_rows (ToTimestamp Examples.t0)). reflexivity.
Defined.

(** *** The three temporal columns *)

Lemma init_coherent_rows f self :
  init f = Return self →
  Forall (λ raw, valid_time (raw_time raw)) (abp_rows f) →
  Forall coherent (frame_rows (data self)).
Proof.
  intros Hinit Hvalid. apply Forall_lookup. intros i r Hr.
  destruct (init_row_of _ _ _ _ Hinit Hr) as (d & raw & Hraw & ->).
  pose proof (proj1 (Forall_lookup _ _) Hvalid _ _ Hraw) as Hv. cbn in Hv.
  unfold coherent, make_row. cbn.
  by rewrite date_of_combine, time_of_combine.
Qed.

Lemma coherent_whole_microseconds r : coherent r → timestamp r mod NS_PER_US = 0.
Proof. intros (_ & _ & ->). apply combine_whole_microseconds. Qed.

Lemma timeshift_coherent_rows shift self self' o :
  Forall coherent (frame_rows (data self)) →
  timeshift shift self = (self', o) →
  Forall coherent (frame_rows (data self')).
Proof.
  intros Hco [(c & -> & -> & Hc)|(e & -> & ->)]%timeshift_effect; [|done].
  assert (Hc' : c mod NS_PER_US = 0).
  { apply Hc. apply Forall_fmap. eapply Forall_impl; [exact Hco|].
    intros r Hr. by apply coherent_whole_microseconds. }
  cbn [data with_data]. rewrite frame_rows_map_rows. apply Forall_fmap.
  eapply Forall_impl; [exact Hco|]. intros r Hr%coherent_whole_microseconds.
  unfold coherent. cbn. split; [done|]. split; [done|].
  symmetry. apply combine_date_time_of.
  clock_constants. Z.div_mod_to_equations. lia.
Qed.

(** X7.  When the times of day of the file are times of day, every row
    that [__init__] builds has the date and the time of its timestamp, and
    its timestamp combines its date and its time. *)
Theorem init_coherent f self :
  init f = Return self →
  Forall (λ raw, valid_time (raw_time raw)) (abp_rows f) →
  Forall coherent (frame_rows (data self)).
Proof. apply init_coherent_rows. Qed.

Lemma init_coherent_night :
  init Examples.night = Return Examples.night_reader ∧
  Forall (λ raw, valid_time (raw_time raw)) (abp_rows Examples.night) ∧
  Forall coherent (frame_rows (data Examples.night_reader)).
Proof.
  assert (Hvalid : Forall (λ raw, valid_time (raw_time raw)) (abp_rows Examples.night)).
  { repeat constructor; cbn; lia. }
  split; [reflexivity|]. split; [exact Hvalid|].
  apply (init_coherent Examples.night); [reflexivity|exact Hvalid].
Defined.

(** X8.  [timeshift] keeps the three temporal columns in agreement: when
    every row has the date and the time of its timestamp and a timestamp
    that combines them, the same holds after a [timeshift] in any mode,
    whether it returns or raises. *)
Theorem timeshift_keeps_coherent shift self self' o :
  Forall coherent (frame_rows (data self)) →
  timeshift shift self = (self', o) →
  Forall coherent (frame_rows (data self')).
Proof. apply timeshift_coherent_rows. Qed.

Lemma timeshift_keeps_coherent_night :
  let run := timeshift (Random (100 * NS_PER_DAY + 12345)) Examples.night_reader in
  Forall coherent (frame_rows (data Examples.night_reader)) ∧
  run = (run.1, run.2) ∧
  Forall coherent (frame_rows (data run.1)).
Proof.
  cbv zeta.
  assert (Hco : Forall coherent (frame_rows (data Examples.night_reader))).
  { apply (init_coherent_rows Examples.night); [reflexivity|].
    repeat constructor; cbn; lia. }
  split; [exact Hco|]. split; [reflexivity|].
  apply (timeshift_keeps_coherent (Random (100 * NS_PER_DAY + 12345))
           Examples.night_reader
           (timeshift (Random (100 * NS_PER_DAY + 12345)) Examples.night_reader).1
           (timeshift (Random (100 * NS_PER_DAY + 12345)) Examples.night_reader).2 Hco).
  reflexivity.
Defined.

(** *** Rounding to the minute *)

Lemma round_min_near v :
  round_min v mod NS_PER_MIN = 0
  ∧ - (30 * NS_PER_SEC) ≤ round_min v - v ≤ 30 * NS_PER_SEC.
Proof.
  unfold round_min. cbv zeta. clock_constants.
  destruct (_ || _) eqn:Hb.
  - apply orb_true_iff in Hb as [Hb|Hb].
    + apply Z.ltb_lt in Hb. Z.div_mod_to_equations. lia.
    + apply andb_true_iff in Hb as [Hb _]. apply Z.eqb_eq in Hb.
      Z.div_mod_to_equations. lia.
  - apply orb_false_iff in Hb as [Hb _]. apply Z.ltb_ge in Hb.
    Z.div_mod_to_equations. lia.
Qed.

Lemma round_min_between v :
  30 * NS_PER_DAY ≤ v ≤ 730 * NS_PER_DAY →
  30 * NS_PER_DAY ≤ round_min v ≤ 730 * NS_PER_DAY.
Proof.
  intros Hv. unfold round_min. cbv zeta. clock_constants.
  destruct (_ || _) eqn:Hb.
  - apply orb_true_iff in Hb as [Hb|Hb].
    + apply Z.ltb_lt in Hb. Z.div_mod_to_equations. lia.
    + apply andb_true_iff in Hb as [Hb _]. apply Z.eqb_eq in Hb.
      Z.div_mod_to_equations. lia.
  - Z.div_mod_to_equations. lia.
Qed.

Lemma round_min_opp v : round_min (- v) = - round_min v.
Proof.
  unfold round_min. cbv zeta.
  assert (HU : NS_PER_MIN = 60000000000) by done. rewrite HU.
  change (60000000000 / 2) with 30000000000.
  pose proof (Z.div_mod v 60000000000 ltac:(done)) as Hv.
  pose proof (Z.mod_pos_bound v 60000000000 ltac:(done)) as Hr.
  pose proof (Z.div_mod (- v) 60000000000 ltac:(done)) as Hv'.
  pose proof (Z.mod_pos_bound (- v) 60000000000 ltac:(done)) as Hr'.
  set (q := v / 60000000000) in *. set (r := v mod 60000000000) in *.
  set (q' := - v / 60000000000) in *. set (r' := - v mod 60000000000) in *.
  clearbody q r q' r'.
  assert (Hcases : (r = 0 ∧ q' = - q ∧ r' = 0)
                   ∨ (0 < r ∧ q' = - q - 1 ∧ r' = 60000000000 - r)) by lia.
  destruct Hcases as [(-> & -> & ->)|(Hpos & -> & ->)].
  - cbn. lia.
  - replace (Z.odd (- q - 1)) with (negb (Z.odd q)).
    2:{ replace (- q - 1) with (- Z.succ q) by lia.
        by rewrite Z.odd_opp, Z.odd_succ, <-Z.negb_odd. }
    destruct (Z.ltb_spec 30000000000 r), (Z.eqb_spec r 30000000000),
      (Z.ltb_spec 30000000000 (60000000000 - r)),
      (Z.eqb_spec (60000000000 - r) 30000000000), (Z.odd q); cbn; lia.
Qed.

Lemma shifted_representable d (l : list Z) :
  within_a_century d → Forall within_a_century l →
  Forall representable ((λ t, t + round_min d) <$> l).
Proof.
  intros Hd Hl. apply Forall_fmap. eapply Forall_impl; [exact Hl|].
  intros t Ht. destruct (round_min_near d) as [_ Hnear].
  unfold representable, within_a_century, CENTURY in *. cbn [compose].
  clock_constants. lia.
Qed.

(** X9.  On device B, for timestamps within a century of the epoch and a
    duration [d] of at most a century, a shift by [d] returns and moves
    every timestamp by [d] rounded to the minute: by a whole number of
    minutes that is within thirty seconds of [d], and by [d] itself when
    [d] is a whole number of minutes.  The new timestamps are within the
    64 bits of nanoseconds of a [pd.Timestamp]. *)
Theorem relative_shift_device_B d self :
  within_a_century d →
  Forall within_a_century (timestamp <$> frame_rows (data self)) →
  ∃ self' c,
    timeshift (ByTimedelta d) self = (self', Return tt)
    ∧ timestamp <$> frame_rows (data self')
      = (λ t, t + c) <$> (timestamp <$> frame_rows (data self))
    ∧ c mod NS_PER_MIN = 0
    ∧ - (30 * NS_PER_SEC) ≤ c - d ≤ 30 * NS_PER_SEC
    ∧ (d mod NS_PER_MIN = 0 → c = d)
    ∧ Forall representable (timestamp <$> frame_rows (data self')).
Proof.
  intros Hd Hrange.
  eexists _, (round_min d). split; [apply rounded_timeshift|].
  cbn [data with_data]. rewrite frame_rows_map_rows, <-!list_fmap_compose.
  assert (Hmoved : (timestamp ∘ (λ r, rederive (set_timestamp (timestamp r + round_min d) r)))
                     <$> frame_rows (data self)
                   = (λ t, t + round_min d) <$> (timestamp <$> frame_rows (data self))).
  { by rewrite <-list_fmap_compose. }
  split; [done|]. destruct (round_min_near d) as [Hmod Hnear].
  split; [done|]. split; [done|]. split.
  - intros Hd'. clock_constants. Z.div_mod_to_equations. lia.
  - rewrite Hmoved. by apply shifted_representable.
Qed.

Lemma relative_shift_device_B_night :
  let d := 90 * NS_PER_SEC in
  within_a_century d ∧
  Forall within_a_century (timestamp <$> frame_rows (data Examples.night_reader)) ∧
  ∃ self' c,
    timeshift (ByTimedelta d) Examples.night_reader = (self', Return tt)
    ∧ timestamp <$> frame_rows (data self')
      = (λ t, t + c) <$> (timestamp <$> frame_rows (data Examples.night_reader))
    ∧ c mod NS_PER_MIN = 0
    ∧ - (30 * NS_PER_SEC) ≤ c - d ≤ 30 * NS_PER_SEC
    ∧ (d mod NS_PER_MIN = 0 → c = d)
    ∧ Forall representable (timestamp <$> frame_rows (data self')).
Proof.
  cbv zeta.
  assert (Hd : within_a_century (90 * NS_PER_SEC)).
  { unfold within_a_century, CENTURY. clock_constants. lia. }
  assert (Hrange : Forall within_a_century
                     (timestamp <$> frame_rows (data Examples.night_reader))).
  { unfold within_a_century. by apply (bool_decide_unpack _); vm_compute. }
  split; [exact Hd|]. split; [exact Hrange|].
  exact (relative_shift_device_B (90 * NS_PER_SEC) Examples.night_reader Hd Hrange).
Defined.

Lemma random_shift_run drawn self :
  timeshift (Random drawn) self
  = (with_data (map_rows (λ r, rederive (set_timestamp (timestamp r + - round_min drawn) r))
                         (data self)) self, Return tt).
Proof.
  unfold timeshift. unfold bind at 1.
  change (timeshift_once (ByTimedelta (- round_min drawn)) self)
    with (timeshift (ByTimedelta (- round_min drawn)) self).
  rewrite rounded_timeshift, round_min_opp_round.
  destruct self as [sub vm df md].
  unfold timeshift_once, bind, get, ret, set_data, with_data. cbn.
  by rewrite map_rows_compose.
Qed.

(** X10.  With 'random' and a duration drawn between 30 and 730 days,
    [timeshift] returns and moves every timestamp into the past by a whole
    number of minutes that lies between 30 and 730 days. *)
Theorem random_shift_device_B drawn self :
  30 * NS_PER_DAY ≤ drawn ≤ 730 * NS_PER_DAY →
  ∃ self' c,
    timeshift (Random drawn) self = (self', Return tt)
    ∧ timestamp <$> frame_rows (data self')
      = (λ t, t - c) <$> (timestamp <$> frame_rows (data self))
    ∧ c mod NS_PER_MIN = 0
    ∧ 30 * NS_PER_DAY ≤ c ≤ 730 * NS_PER_DAY.
Proof.
  intros Hdrawn. eexists _, (round_min drawn). split; [apply random_shift_run|].
  cbn [data with_data]. rewrite frame_rows_map_rows, <-!list_fmap_compose.
  split; [|split; [apply round_min_near|by apply round_min_between]].
  apply list_fmap_ext. intros _ r _. cbn. lia.
Qed.

Lemma random_shift_device_B_night :
  let drawn := 100 * NS_PER_DAY + 12345 in
  30 * NS_PER_DAY ≤ drawn ≤ 730 * NS_PER_DAY ∧
  ∃ self' c,
    timeshift (Random drawn) Examples.night_reader = (self', Return tt)
    ∧ timestamp <$> frame_rows (data self')
      = (λ t, t - c) <$> (timestamp <$> frame_rows (data Examples.night_reader))
    ∧ c mod NS_PER_MIN = 0
    ∧ 30 * NS_PER_DAY ≤ c ≤ 730 * NS_PER_DAY.
Proof.
  cbv zeta.
  assert (H : 30 * NS_PER_DAY ≤ 100 * NS_PER_DAY + 12345 ≤ 730 * NS_PER_DAY).
  { clock_constants. lia. }
  split; [exact H|]. apply (random_shift_device_B _ Examples.night_reader H).
Defined.

Lemma map_rows_fixed f df :
  Forall (λ r, f r = r) (frame_rows df) → map_rows f df = df.
Proof.
  destruct df as [rows|rows]; cbn [frame_rows map_rows]; intros Hfix; f_equal.
  - rewrite <-(list_fmap_id rows) at 2. apply Forall_fmap_ext_1.
    rewrite Forall_fmap in Hfix. eapply Forall_impl; [exact Hfix|].
    intros [l r] Hr. cbn in *. unfold prod_map. cbn. by rewrite Hr.
  - rewrite <-(list_fmap_id rows) at 2. by apply Forall_fmap_ext_1.
Qed.

Lemma relative_shift_back d self :
  Forall coherent (frame_rows (data self)) →
  (timeshift (ByTimedelta d) ;; timeshift (ByTimedelta (- d))) self = (self, Return tt).
Proof.
  intros Hco. rewrite rounded_timeshift_twice, round_min_opp.
  rewrite map_rows_fixed; [by rewrite with_data_same|].
  eapply Forall_impl; [exact Hco|]. intros [ts dt tm ? ? ? ? ? ? ? ?] (Hd & Ht & _).
  unfold rederive, set_timestamp. cbn in *.
  replace (ts + (round_min d + - round_min d)) with ts by lia.
  by rewrite <-Hd, <-Ht.
Qed.

(** X11.  On device B, for timestamps within a century of the epoch and
    a duration [d] of at most a century, the shift by [d] returns with
    timestamps that a [pd.Timestamp] holds, and the shift by [-d] after it
    gives the reader back as it was, when every row has the date and the
    time of its timestamp (as after [__init__]). *)
Theorem relative_shift_undone_device_B d self :
  within_a_century d →
  Forall within_a_century (timestamp <$> frame_rows (data self)) →
  Forall coherent (frame_rows (data self)) →
  ∃ shifted,
    timeshift (ByTimedelta d) self = (shifted, Return tt)
    ∧ Forall representable (timestamp <$> frame_rows (data shifted))
    ∧ (timeshift (ByTimedelta d) ;; timeshift (ByTimedelta (- d))) self = (self, Return tt).
Proof.
  intros Hd Hrange Hco. eexists. split; [apply rounded_timeshift|].
  split; [|by apply relative_shift_back].
  cbn [data with_data]. rewrite frame_rows_map_rows, <-!list_fmap_compose.
  rewrite (list_fmap_compose timestamp (λ t, t + round_min d)).
  by apply shifted_representable.
Qed.

Lemma relative_shift_undone_device_B_night :
  let d := - (400 * NS_PER_DAY + 31 * NS_PER_SEC) in
  within_a_century d ∧
  Forall within_a_century (timestamp <$> frame_rows (data Examples.night_reader)) ∧
  Forall coherent (frame_rows (data Examples.night_reader)) ∧
  ∃ shifted,
    timeshift (ByTimedelta d) Examples.night_reader = (shifted, Return tt)
    ∧ Forall representable (timestamp <$> frame_rows (data shifted))
    ∧ (timeshift (ByTimedelta d) ;; timeshift (ByTimedelta (- d))) Examples.night_reader
      = (Examples.night_reader, Return tt).
Proof.
  cbv zeta.
  assert (Hd : within_a_century (- (400 * NS_PER_DAY + 31 * NS_PER_SEC))).
  { unfold within_a_century, CENTURY. clock_constants. lia. }
  assert (Hrange : Forall within_a_century
                     (timestamp <$> frame_rows (data Examples.night_reader))).
  { unfold within_a_century. by apply (bool_decide_unpack _); vm_compute. }
  assert (Hco : Forall coherent (frame_rows (data Examples.night_reader))).
  { apply (init_coherent_rows Examples.night); [reflexivity|].
    repeat constructor; cbn; lia. }
  split; [exact Hd|]. split; [exact Hrange|]. split; [exact Hco|].
  exact (relative_shift_undone_device_B _ Examples.night_reader Hd Hrange Hco).
Defined.

End SpacelabsShifts.
Module SpacelabsCompose.
Import Clock ClockFacts ClockMore Invariants Spacelabs SpacelabsFacts SpacelabsMore
  SpacelabsShifts.

(** *** [drop_EB] and [timeshift] *)

Lemma filter_fmap_kept {A} (P : A → Prop) `{∀ x, Decision (P x)} (g : A → A)
    (l : list A) :
  (∀ x, P (g x) ↔ P x) → filter P (g <$> l) = g <$> filter P l.
Proof.
  intros Hg. induction l as [|x l IH]; [done|]. rewrite fmap_cons.
  destruct (decide (P x)) as [Hx|Hx].
  - assert (Hgx : P (g x)) by (by apply Hg).
    rewrite (filter_cons_True P (g x)), (filter_cons_True P x) by done.
    by rewrite fmap_cons, IH.
  - assert (Hgx : ¬ P (g x)) by (by rewrite Hg).
    by rewrite (filter_cons_False P (g x)), (filter_cons_False P x).
Qed.

Lemma not_EB_moved t r : not_EB (rederive (set_timestamp t r)) = not_EB r.
Proof. done. Qed.

Lemma drop_EB_after_map g self rows :
  (∀ r, not_EB (g r) = not_EB r) →
  data self = Positional rows →
  drop_EB (with_data (map_rows g (data self)) self)
  = (with_data (Timestamped (g <$> filter (λ r, not_EB r = true) rows.*2)) self,
     Return tt).
Proof.
  intros Hg Hdata. rewrite Hdata. cbn [map_rows].
  erewrite drop_EB_positional by done. rewrite with_data_with_data.
  do 3 f_equal. rewrite <-list_fmap_compose.
  rewrite <-(filter_fmap_kept (λ r, not_EB r = true) g) by (intros; by rewrite Hg).
  f_equal. rewrite <-list_fmap_compose. apply list_fmap_ext. by intros _ [l r] _.
Qed.

Lemma relative_shift_then_drop_EB d self rows :
  data self = Positional rows →
  (timeshift (ByTimedelta d) ;; drop_EB) self = (drop_EB ;; timeshift (ByTimedelta d)) self.
Proof.
  intros Hdata. unfold bind.
  rewrite rounded_timeshift, (drop_EB_positional _ _ Hdata), rounded_timeshift.
  erewrite drop_EB_after_map by done. done.
Qed.

Lemma anchored_shift_then_drop_EB A self first rest :
  data self = Positional ((0, first) :: rest) →
  error first ≠ Some "EB" →
  (timeshift (ToTimestamp A) ;; drop_EB) self = (drop_EB ;; timeshift (ToTimestamp A)) self.
Proof.
  intros Hdata Hfirst%not_EB_spec.
  assert (Hkept : filter (λ r, not_EB r = true) ((0, first) :: rest).*2
                  = first :: filter (λ r, not_EB r = true) rest.*2).
  { rewrite fmap_cons. by rewrite filter_cons_True. }
  unfold bind.
  rewrite (anchored_shift_run A self (timestamp first)) by (by rewrite Hdata).
  rewrite (drop_EB_positional _ _ Hdata).
  erewrite drop_EB_after_map by done.
  rewrite Hkept. by rewrite (anchored_shift_run A _ (timestamp first)).
Qed.

(** X12.  On a reader whose table still has the positional index, a shift
    by a duration and [drop_EB] give the same reader in either order.  A
    shift to an instant and [drop_EB] do so when the row labelled 0, which
    comes first, is no 'EB' error. *)
Theorem drop_EB_commutes_with_timeshift self first rest :
  data self = Positional ((0, first) :: rest) →
  (∀ d, (timeshift (ByTimedelta d) ;; drop_EB) self
        = (drop_EB ;; timeshift (ByTimedelta d)) self)
  ∧ (error first ≠ Some "EB" →
     ∀ A, (timeshift (ToTimestamp A) ;; drop_EB) self
          = (drop_EB ;; timeshift (ToTimestamp A)) self).
Proof.
  intros Hdata. split.
  - intros d. by eapply relative_shift_then_drop_EB.
  - intros Hfirst A. by eapply anchored_shift_then_drop_EB.
Qed.
Lemma drop_EB_commutes_with_timeshift_night :
  ∃ first rest,
    data Examples.night_reader = Positional ((0, first) :: rest)
    ∧ error first ≠ Some "EB"
    ∧ (∀ d, (timeshift (ByTimedelta d) ;; drop_EB) Examples.night_reader
            = (drop_EB ;; timeshift (ByTimedelta d)) Examples.night_reader)
    ∧ (∀ A, (timeshift (ToTimestamp A) ;; drop_EB) Examples.night_reader
            = (drop_EB ;; timeshift (ToTimestamp A)) Examples.night_reader).
Proof.
  eexists _, _. split; [reflexivity|]. split; [discriminate|].
  destruct (drop_EB_commutes_with_timeshift Examples.night_reader _ _ eq_refl)
    as [Hrel Hanc].
  split; [exact Hrel|]. apply Hanc. discriminate.
Defined.

(** *** [deidentify] and [timeshift] *)

Lemma deidentify_run subject_id self :
  deidentify subject_id self
  = (mkReader (match subject_id with
               | Some s => if String.eqb s "" then "xxxxxx" else s
               | None => "xxxxxx"
               end)
              (valid_measurements self) (data self)
              ((λ kv, (kv.1, PNone)) <$> metadata self), Return tt).
Proof.
  destruct self as [sub vm df md].
  unfold deidentify, bind, get, set_subject, set_metadata.
  destruct subject_id as [s|]; [destruct (String.eqb s "")|]; done.
Qed.

(** What [timeshift] does is decided by the table alone. *)
Lemma timeshift_data_only shift df :
  ∃ df' o, ∀ sub vm md,
    timeshift shift (mkReader sub vm df md) = (mkReader sub vm df' md, o).
Proof.
  destruct shift as [drawn|A|d|];
    unfold timeshift, timeshift_once, bind, get, lift, ret, set_data, with_data; cbn.
  - eauto.
  - destruct (first_timestamp df) as [first|e]; cbn; eauto.
  - eauto.
  - eauto.
Qed.

Lemma deidentify_then_timeshift shift subject_id self self' :
  timeshift shift self = (self', Return tt) →
  (deidentify subject_id ;; timeshift shift) self
  = (timeshift shift ;; deidentify subject_id) self.
Proof.
  destruct self as [sub vm df md].
  destruct (timeshift_data_only shift df) as (df' & o & Hrun).
  rewrite Hrun. intros [= <- ->]. unfold bind.
  rewrite Hrun, !deidentify_run. cbn. by rewrite Hrun.
Qed.

Lemma deidentify_again id id' self :
  (deidentify id' ;; deidentify id) self = deidentify id self.
Proof.
  unfold bind. rewrite !deidentify_run. cbn. do 2 f_equal.
  rewrite <-list_fmap_compose. by apply list_fmap_ext.
Qed.

(** X13.  [deidentify] and a [timeshift] that returns give the same reader
    in either order, and a second [deidentify] leaves what the second call
    alone would leave. *)
Theorem deidentify_composes shift id id' self self' :
  timeshift shift self = (self', Return tt) →
  (deidentify id ;; timeshift shift) self = (timeshift shift ;; deidentify id) self
  ∧ (deidentify id' ;; deidentify id) self = deidentify id self.
Proof.
  intros Hrun. split; [by eapply deidentify_then_timeshift|apply deidentify_again].
Qed.

Lemma deidentify_composes_night :
  let shift := ToTimestamp Examples.t0 in
  timeshift shift Examples.night_reader
  = ((timeshift shift Examples.night_reader).1, Return tt) ∧
  (deidentify (Some "S-17") ;; timeshift shift) Examples.night_reader
  = (timeshift shift ;; deidentify (Some "S-17")) Examples.night_reader
  ∧ (deidentify None ;; deidentify (Some "S-17")) Examples.night_reader
    = deidentify (Some "S-17") Examples.night_reader.
Proof.
  cbv zeta. split; [reflexivity|].
  apply (deidentify_composes (ToTimestamp Examples.t0) (Some "S-17") None
           Examples.night_reader
           (timeshift (ToTimestamp Examples.t0) Examples.night_reader).1).
  reflexivity.
Defined.

(** *** [set_window] *)

Lemma set_window_other d wt self :
  wt ≠ "bffill" → wt ≠ "bfill" → wt ≠ "ffill" → set_window d wt self = (self, Return tt).
Proof.
  intros H1 H2 H3. unfold set_window.
  apply String.eqb_neq in H1, H2, H3. by rewrite H1, H2, H3.
Qed.

(** X14.  On a table keyed by timestamp, 'bfill' gives every row the
    window that ends at its timestamp and 'ffill' the window that starts
    at it; either window is as long as the duration given, whatever that
    is, and the timestamps stay. *)
Theorem trailing_and_leading_windows d self rows :
  data self = Timestamped rows →
  (∃ self',
     set_window d "bfill" self = (self', Return tt)
     ∧ timestamp <$> frame_rows (data self') = timestamp <$> rows
     ∧ ∀ r, r ∈ frame_rows (data self') →
         window_start r = Some (TsCell (timestamp r - d))
         ∧ window_end r = Some (TsCell (timestamp r))) ∧
  (∃ self',
     set_window d "ffill" self = (self', Return tt)
     ∧ timestamp <$> frame_rows (data self') = timestamp <$> rows
     ∧ ∀ r, r ∈ frame_rows (data self') →
         window_start r = Some (TsCell (timestamp r))
         ∧ window_end r = Some (TsCell (timestamp r + d))).
Proof.
  intros Hdata. split.
  - eexists. split; [by apply set_window_bfill_timestamped|].
    cbn [data with_data frame_rows]. split.
    + rewrite <-list_fmap_compose. by apply list_fmap_ext.
    + by intros r (r0 & -> & _)%list_elem_of_fmap.
  - eexists. split; [by apply set_window_ffill_timestamped|].
    cbn [data with_data frame_rows]. split.
    + rewrite <-list_fmap_compose. by apply list_fmap_ext.
    + by intros r (r0 & -> & _)%list_elem_of_fmap.
Qed.

Lemma trailing_and_leading_windows_night :
  let d := 5 * NS_PER_MIN + 1 in
  data Examples.night_kept = Timestamped (frame_rows (data Examples.night_kept)) ∧
  (∃ self',
     set_window d "bfill" Examples.night_kept = (self', Return tt)
     ∧ timestamp <$> frame_rows (data self')
       = timestamp <$> frame_rows (data Examples.night_kept)
     ∧ ∀ r, r ∈ frame_rows (data self') →
         window_start r = Some (TsCell (timestamp r - d))
         ∧ window_end r = Some (TsCell (timestamp r))) ∧
  (∃ self',
     set_window d "ffill" Examples.night_kept = (self', Return tt)
     ∧ timestamp <$> frame_rows (data self')
       = timestamp <$> frame_rows (data Examples.night_kept)
     ∧ ∀ r, r ∈ frame_rows (data self') →
         window_start r = Some (TsCell (timestamp r))
         ∧ window_end r = Some (TsCell (timestamp r + d))).
Proof.
  cbv zeta. split; [reflexivity|].
  apply (trailing_and_leading_windows (5 * NS_PER_MIN + 1) Examples.night_kept).
  reflexivity.
Defined.

Lemma windows_replaced c1 c2 c3 c4 r :
  set_window_end c4 (set_window_start c3 (set_window_end c2 (set_window_start c1 r)))
  = set_window_end c4 (set_window_start c3 r).
Proof. done. Qed.

Lemma set_window_replaces d1 wt1 d2 wt2 self rows :
  data self = Timestamped rows →
  wt2 ∈ ["bffill"; "bfill"; "ffill"] →
  (set_window d1 wt1 ;; set_window d2 wt2) self = set_window d2 wt2 self.
Proof.
  intros Hdata Hwt2. unfold bind.
  assert (Hstep : ∃ g, set_window d1 wt1 self
                       = (with_data (Timestamped (g <$> rows)) self, Return tt)
                       ∧ ∀ r, (timestamp (g r) = timestamp r)
                              ∧ ∀ c3 c4, set_window_end c4 (set_window_start c3 (g r))
                                         = set_window_end c4 (set_window_start c3 r)).
  { destruct (decide (wt1 = "bffill")) as [->|H1];
      [|destruct (decide (wt1 = "bfill")) as [->|H2];
        [|destruct (decide (wt1 = "ffill")) as [->|H3]]].
    - eexists. split; [by apply set_window_bffill_timestamped|done].
    - eexists. split; [by apply set_window_bfill_timestamped|done].
    - eexists. split; [by apply set_window_ffill_timestamped|done].
    - exists id. rewrite set_window_other by done. rewrite list_fmap_id, <-Hdata.
      by rewrite with_data_same. }
  destruct Hstep as (g & -> & Hg).
  assert (Hdata' : data (with_data (Timestamped (g <$> rows)) self)
                   = Timestamped (g <$> rows)) by done.
  destruct (recognized_policy _ Hwt2) as [-> | [-> | ->]].
  - rewrite (set_window_bffill_timestamped _ _ _ Hdata'),
      (set_window_bffill_timestamped _ _ _ Hdata).
    rewrite with_data_with_data, <-list_fmap_compose. do 3 f_equal.
    apply list_fmap_ext. intros _ r _. cbn. destruct (Hg r) as [-> ->]. done.
  - rewrite (set_window_bfill_timestamped _ _ _ Hdata'),
      (set_window_bfill_timestamped _ _ _ Hdata).
    rewrite with_data_with_data, <-list_fmap_compose. do 3 f_equal.
    apply list_fmap_ext. intros _ r _. cbn. destruct (Hg r) as [-> ->]. done.
  - rewrite (set_window_ffill_timestamped _ _ _ Hdata'),
      (set_window_ffill_timestamped _ _ _ Hdata).
    rewrite with_data_with_data, <-list_fmap_compose. do 3 f_equal.
    apply list_fmap_ext. intros _ r _. cbn. destruct (Hg r) as [-> ->]. done.
Qed.

(** X15.  On a table keyed by timestamp [set_window] replaces the windows
    that an earlier call has set: after two calls the reader is what the
    second call alone would leave, whatever the first call was given. *)
Theorem set_window_replaces_windows d1 wt1 d2 wt2 self rows :
  data self = Timestamped rows →
  wt2 ∈ ["bffill"; "bfill"; "ffill"] →
  (set_window d1 wt1 ;; set_window d2 wt2) self = set_window d2 wt2 self.
Proof. apply set_window_replaces. Qed.

Lemma set_window_replaces_windows_night :
  data Examples.night_kept = Timestamped (frame_rows (data Examples.night_kept)) ∧
  "bffill" ∈ ["bffill"; "bfill"; "ffill"] ∧
  (set_window (5 * NS_PER_MIN) "ffill" ;; set_window (30 * NS_PER_MIN) "bffill")
    Examples.night_kept
  = set_window (30 * NS_PER_MIN) "bffill" Examples.night_kept.
Proof.
  split; [reflexivity|]. split; [rewrite !elem_of_cons; auto|].
  apply (set_window_replaces_windows _ _ _ _ _ (frame_rows (data Examples.night_kept)));
    [reflexivity|rewrite !elem_of_cons; auto].
Defined.

End SpacelabsCompose.
(** ** Device A *)

Module EmpaticaMore.
Import Clock Invariants Empatica EmpaticaFacts.

(** *** Reading *)

Lemma date_range_lookup start freq periods k :
  (k < periods)%nat → date_range start freq periods !! k = Some (start + Z.of_nat k * freq).
Proof.
  intros Hk. unfold date_range. by rewrite list_lookup_fmap, lookup_seq_lt.
Qed.

Lemma date_range_increasing start freq periods :
  0 < freq → StronglySorted Z.lt (date_range start freq periods).
Proof.
  intros Hfreq. unfold date_range.
  apply (StronglySorted_fmap _ lt); [intros j k Hjk; nia|].
  generalize 0%nat as j.
  induction periods as [|n IH]; intros j; cbn; constructor; [apply IH|].
  apply Forall_forall. intros k [Hk _]%elem_of_seq. lia.
Qed.

Lemma _read_signal_table {A} (file : SignalFile A) (tbl : Table A) :
  _read_signal (Some file) = Some tbl →
  values tbl = file_rows file
  ∧ length (index tbl) = length (file_rows file)
  ∧ (∀ k, (k < length (file_rows file))%nat →
          index tbl !! k = Some (file_start file + Z.of_nat k * file_period file))
  ∧ (0 < file_period file → StronglySorted Z.lt (index tbl)).
Proof.
  intros [= <-]. cbn [index values]. split; [done|]. split.
  - unfold date_range. by rewrite length_fmap, length_seq.
  - split; [intros k Hk; by apply date_range_lookup|apply date_range_increasing].
Qed.

(** X16.  For a file of two rows or more, the table that [_read_signal]
    gives holds the rows of the file in their order, one label per row, and
    the label of row k is the start of the file plus k sample periods: the
    labels increase strictly when the period is positive. *)
Theorem read_signal_evenly_spaced {A} (file : SignalFile A) :
  tabular file →
  ∃ tbl,
    _read_signal (Some file) = Some tbl
    ∧ values tbl = file_rows file
    ∧ length (index tbl) = length (file_rows file)
    ∧ (∀ k, (k < length (file_rows file))%nat →
            index tbl !! k = Some (file_start file + Z.of_nat k * file_period file))
    ∧ (0 < file_period file → StronglySorted Z.lt (index tbl)).
Proof.
  intros _. eexists. split; [done|]. by apply _read_signal_table.
Qed.

(** The scenario of a signal at 4 Hz with 8 samples. *)
Lemma read_signal_evenly_spaced_4Hz :
  let file := mkSignalFile (1000000 * NS_PER_SEC) 250000000 (replicate 8 (Some 0)) in
  tabular file ∧ 0 < file_period file ∧
  ∃ tbl,
    _read_signal (Some file) = Some tbl
    ∧ index tbl
      = [ 1000000000000000; 1000000250000000; 1000000500000000; 1000000750000000;
          1000001000000000; 1000001250000000; 1000001500000000; 1000001750000000 ]
    ∧ StronglySorted Z.lt (index tbl).
Proof.
  cbv zeta.
  assert (Htab : tabular (mkSignalFile (1000000 * NS_PER_SEC) 250000000
                            (replicate 8 (Some 0)))).
  { unfold tabular. cbn. lia. }
  split; [exact Htab|]. split; [done|].
  destruct (read_signal_evenly_spaced
              (mkSignalFile (1000000 * NS_PER_SEC) 250000000 (replicate 8 (Some 0))) Htab)
    as (tbl & Hread & _ & _ & _ & Hsorted).
  exists tbl. split; [exact Hread|]. injection Hread as <-.
  split; [reflexivity|]. apply Hsorted. done.
Defined.

(** *** [start_times] *)

Lemma note_start_lookup name name' start (st : gmap string Z) :
  note_start name start st !! name'
  = if decide (name = name')
    then match start with Some t => Some t | None => st !! name' end
    else st !! name'.
Proof.
  unfold note_start. destruct start as [t|]; case_decide; subst;
    by rewrite ?lookup_insert_eq, ?lookup_insert_ne.
Qed.

Section Reading.
Context {V : Type}.

Lemma note_start_other name name' start (st : gmap string Z) :
  name ≠ name' → note_start name start st !! name' = st !! name'.
Proof. intros Hne. rewrite note_start_lookup. by case_decide. Qed.

Lemma note_start_same name start (st : gmap string Z) :
  note_start name start st !! name
  = match start with Some t => Some t | None => st !! name end.
Proof. rewrite note_start_lookup. by case_decide. Qed.

Ltac start_lookup :=
  repeat (rewrite note_start_other by done); rewrite note_start_same;
  repeat (rewrite note_start_other by done); rewrite ?lookup_empty.

Lemma init_start_times (dir : Directory V) :
  start_times (init dir) !! "ACC" = file_start <$> ACC_csv dir
  ∧ start_times (init dir) !! "BVP" = file_start <$> BVP_csv dir
  ∧ start_times (init dir) !! "EDA" = file_start <$> EDA_csv dir
  ∧ start_times (init dir) !! "HR" = file_start <$> HR_csv dir
  ∧ start_times (init dir) !! "TEMP" = file_start <$> TEMP_csv dir
  ∧ start_times (init dir) !! "IBI" = ibi_start <$> IBI_csv dir.
Proof.
  unfold init. cbn [start_times].
  split; [start_lookup; by destruct (ACC_csv dir)|].
  split; [start_lookup; by destruct (BVP_csv dir)|].
  split; [start_lookup; by destruct (EDA_csv dir)|].
  split; [start_lookup; by destruct (HR_csv dir)|].
  split; [start_lookup; by destruct (TEMP_csv dir)|].
  start_lookup; by destruct (IBI_csv dir).
Qed.

Lemma starts_with_read {A} name (st : gmap string Z) (file : option (SignalFile A)) :
  st !! name = file_start <$> file → starts_with name st (_read_signal file).
Proof.
  intros Hst s t Hread Hhead. destruct file as [f|]; [|done].
  injection Hread as <-. cbn in Hhead. rewrite Hst. cbn. f_equal.
  unfold date_range in Hhead. destruct (length (file_rows f)); cbn in Hhead; [done|].
  injection Hhead as <-. lia.
Qed.

Lemma init_starts_where_recorded (dir : Directory V) : starts_where_recorded (init dir).
Proof.
  destruct (init_start_times dir) as (Hacc & Hbvp & Heda & Hhr & Htemp & _).
  repeat split; by apply starts_with_read.
Qed.

Lemma starts_with_translated {A} name d (st : gmap string Z) (o : option (Table A)) :
  starts_with name st o →
  starts_with name ((λ t, t + d) <$> st) (reindex (translate d) <$> o).
Proof.
  intros Hst s' t' Hs' Hhead. destruct o as [s|]; [|done]. injection Hs' as <-.
  cbn in Hhead. unfold translate in Hhead.
  destruct (index s) as [|t idx] eqn:Hidx; [done|]. injection Hhead as <-.
  rewrite lookup_fmap, (Hst s t); [done|done|by rewrite Hidx].
Qed.

Lemma relative_shift_starts d (self self' : EmpaticaReader V) o :
  starts_where_recorded self →
  timeshift (ByTimedelta d) self = (self', o) →
  starts_where_recorded self'.
Proof.
  intros (Hacc & Hbvp & Heda & Hhr & Htemp). rewrite relative_timeshift.
  intros [= <- <-]. repeat split; by apply starts_with_translated.
Qed.

End Reading.

(** X17.  After [__init__] on a directory whose signal files have two
    rows or more, [start_times] holds for each of the signals ACC, BVP,
    EDA, HR and TEMP that was read the first label of its table, which is
    the start that [_write_signal] writes back. *)
Theorem init_records_starts {V} (dir : Directory V) :
  readable dir → starts_where_recorded (init dir).
Proof. intros _. apply init_starts_where_recorded. Qed.

Lemma init_records_starts_session :
  readable Examples.session ∧ starts_where_recorded Examples.session_reader.
Proof.
  assert (Hreadable : readable Examples.session).
  { repeat split; intros file [= <-]; unfold tabular; cbn; lia. }
  split; [exact Hreadable|]. exact (init_records_starts Examples.session Hreadable).
Defined.

(** X18.  A shift by a duration keeps [start_times] in step with the five
    signal tables: where each entry was the first label of its table before
    the shift, it is so after it. *)
Theorem relative_shift_keeps_starts {V} d (self self' : EmpaticaReader V) o :
  starts_where_recorded self →
  timeshift (ByTimedelta d) self = (self', o) →
  starts_where_recorded self'.
Proof. apply relative_shift_starts. Qed.

Lemma relative_shift_keeps_starts_session :
  let run := timeshift (ByTimedelta (- (400 * NS_PER_DAY))) Examples.session_reader in
  starts_where_recorded Examples.session_reader ∧
  run = (run.1, run.2) ∧
  starts_where_recorded run.1.
Proof.
  cbv zeta.
  assert (H : starts_where_recorded Examples.session_reader)
    by apply init_starts_where_recorded.
  split; [exact H|]. split; [reflexivity|].
  apply (relative_shift_keeps_starts (- (400 * NS_PER_DAY)) Examples.session_reader
           (timeshift (ByTimedelta (- (400 * NS_PER_DAY))) Examples.session_reader).1
           (timeshift (ByTimedelta (- (400 * NS_PER_DAY))) Examples.session_reader).2 H).
  reflexivity.
Defined.

End EmpaticaMore.
Module EmpaticaShifts.
Import Clock Invariants Empatica EmpaticaFacts EmpaticaMore.

(** *** The IBI table *)

(** X19.  After [__init__] on a directory whose signal files have two
    rows or more, the offsets that [_write_ibi] writes are the offsets of
    the IBI file that was read, row by row; when there was no IBI file,
    [start_times] has no entry for it and [_write_ibi] raises a KeyError. *)
Theorem ibi_offsets_round_trip {V} (dir : Directory V) :
  readable dir →
  ibi_offsets (init dir)
  = match IBI_csv dir with
    | Some file => Return ((ibi_rows file).*1)
    | None => Raise (KeyError "IBI")
    end.
Proof.
  intros _. destruct (init_start_times dir) as (_ & _ & _ & _ & _ & Hibi).
  unfold ibi_offsets. rewrite Hibi.
  destruct (IBI_csv dir) as [file|] eqn:E; cbn; [|done].
  unfold init. cbn [IBI]. rewrite E. cbn. f_equal.
  rewrite <-list_fmap_compose. apply list_fmap_ext. intros _ [o v] _. cbn. lia.
Qed.

Lemma ibi_offsets_round_trip_session :
  readable Examples.session
  ∧ ibi_offsets Examples.session_reader = Return [750000000; 1500000000].
Proof.
  assert (Hreadable : readable Examples.session).
  { repeat split; intros file [= <-]; unfold tabular; cbn; lia. }
  split; [exact Hreadable|]. exact (ibi_offsets_round_trip Examples.session Hreadable).
Defined.

(** *** [timeshift] to an instant *)

Lemma minimum_least (l : list Z) m :
  minimum l = Some m → m ∈ l ∧ Forall (λ t, m ≤ t) l.
Proof.
  destruct l as [|t rest]; [done|]. cbn. intros [= <-].
  assert (H : ∀ acc, (foldl Z.min acc rest = acc ∨ foldl Z.min acc rest ∈ rest)
                     ∧ foldl Z.min acc rest ≤ acc
                     ∧ Forall (λ u, foldl Z.min acc rest ≤ u) rest).
  { induction rest as [|u rest IH]; intros acc; cbn.
    - split; [by left|]. split; [lia|constructor].
    - destruct (IH (acc `min` u)) as (Hin & Hle & Hall).
      split; [|split; [lia|constructor; [lia|done]]].
      destruct Hin as [Heq|Hin]; [|right; by right].
      destruct (Z.min_spec acc u) as [[_ Hm]|[_ Hm]].
      + left. lia.
      + right. replace (foldl Z.min (acc `min` u) rest) with u by lia. left. }
  destruct (H t) as (Hin & Hle & Hall). split.
  - destruct Hin as [->|Hin]; [left|by right].
  - by constructor.
Qed.

Lemma anchor_translated A l : translated l (anchor A l).
Proof.
  unfold anchor. destruct (minimum l) as [m|] eqn:Hmin.
  - exists (A - m). apply list_fmap_ext. intros; lia.
  - exists 0. destruct l; [done|]. discriminate Hmin.
Qed.

Section Anchored.
Context {V : Type}.
Implicit Types (self : EmpaticaReader V).

Lemma anchored_shift_raises A self :
  start_times self = ∅ → timeshift (ToTimestamp A) self = (self, Raise ValueError).
Proof.
  intros Hst. unfold timeshift, timeshift_once, bind, get, lift.
  by rewrite Hst, map_to_list_empty.
Qed.

Lemma anchored_shift_returns A self :
  start_times self ≠ ∅ →
  ∃ m, minimum (map_to_list (start_times self)).*2 = Some m
       ∧ timeshift (ToTimestamp A) self
         = (with_dataframes (anchor A)
              (with_tags (anchor A)
                 (with_start_times (fmap (λ start_time, A + (start_time - m))) self)),
            Return tt).
Proof.
  intros Hst. destruct (minimum (map_to_list (start_times self)).*2) as [m|] eqn:Hmin.
  - exists m. split; [done|].
    unfold timeshift, timeshift_once, bind, get, lift. by rewrite Hmin.
  - destruct (map_to_list (start_times self)) as [|kv l] eqn:Hl; [|done].
    by apply map_to_list_empty_iff in Hl.
Qed.

End Anchored.

(** X20.  The shift to an instant takes its reference from [start_times]:
    when no signal file and no IBI file was read, so that [start_times] is
    empty, it raises a ValueError and moves nothing, the tags included;
    otherwise it returns. *)
Theorem anchored_shift_needs_a_start {V} A (self : EmpaticaReader V) :
  (start_times self = ∅ ∧ timeshift (ToTimestamp A) self = (self, Raise ValueError))
  ∨ (start_times self ≠ ∅ ∧ ∃ self', timeshift (ToTimestamp A) self = (self', Return tt)).
Proof.
  destruct (decide (start_times self = ∅)) as [Hst|Hst].
  - left. split; [done|]. by apply anchored_shift_raises.
  - right. split; [done|]. destruct (anchored_shift_returns A self Hst) as (m & _ & ->).
    eauto.
Qed.

Example anchored_shift_tags_only :
  timeshift (ToTimestamp 0) (init MoreExamples.tags_only)
  = (init MoreExamples.tags_only, Raise ValueError).
Proof. vm_compute. reflexivity. Qed.

Section AnchoredTables.
Context {V : Type}.
Implicit Types (self : EmpaticaReader V).

Lemma anchored_shift_effect A self self' :
  timeshift (ToTimestamp A) self = (self', Return tt) →
  ∃ m, minimum (map_to_list (start_times self)).*2 = Some m
       ∧ self' = with_dataframes (anchor A)
                   (with_tags (anchor A)
                      (with_start_times (fmap (λ start_time, A + (start_time - m))) self)).
Proof.
  destruct (decide (start_times self = ∅)) as [Hst|Hst].
  - by rewrite anchored_shift_raises.
  - destruct (anchored_shift_returns A self Hst) as (m & Hm & ->).
    intros [= <-]. eauto.
Qed.

Lemma anchored_table {A} (anchor_instant : Z) (o : option (Table A)) :
  table_translated o (reindex (anchor anchor_instant) <$> o).
Proof.
  intros s ->. eexists. split; [done|]. split; [done|]. apply anchor_translated.
Qed.

Lemma anchored_tables A self self' :
  timeshift (ToTimestamp A) self = (self', Return tt) →
  table_translated (ACC self) (ACC self')
  ∧ table_translated (BVP self) (BVP self')
  ∧ table_translated (EDA self) (EDA self')
  ∧ table_translated (HR self) (HR self')
  ∧ table_translated (TEMP self) (TEMP self')
  ∧ (∀ j, data self = Some j →
          ∃ j', data self' = Some j' ∧ joined_columns j' = joined_columns j
                ∧ translated (joined_index j) (joined_index j'))
  ∧ (∀ tg, tags self = Some tg →
           ∃ tg', tags self' = Some tg' ∧ translated tg tg')
  ∧ (∃ name m,
        start_times self !! name = Some m
        ∧ (∀ name' t, start_times self !! name' = Some t → m ≤ t)
        ∧ start_times self' = (λ t, t + (A - m)) <$> start_times self).
Proof.
  intros (m & Hmin & ->)%anchored_shift_effect.
  destruct self as [st acc bvp eda hr temp ibi tg dt].
  cbn [with_dataframes with_tags with_start_times start_times ACC BVP EDA HR TEMP IBI
       tags data] in *.
  repeat (split; [apply anchored_table|]).
  split.
  { intros j ->. eexists. split; [done|]. split; [done|]. apply anchor_translated. }
  split.
  { intros tg0 ->. eexists. split; [done|]. apply anchor_translated. }
  destruct (minimum_least _ _ Hmin) as [Hin Hall].
  apply list_elem_of_fmap in Hin as ([name m'] & -> & Hin).
  exists name, m'. cbn in *. split; [by apply elem_of_map_to_list|]. split.
  - intros name' t Ht. rewrite Forall_forall in Hall. apply Hall.
    apply list_elem_of_fmap. exists (name', t). split; [done|].
    by apply elem_of_map_to_list.
  - apply map_fmap_ext. intros; lia.
Qed.

End AnchoredTables.

(** X21.  A shift to the instant [A] that returns moves each table as a
    whole: each of ACC, BVP, EDA, HR, TEMP, the joined table and the tags
    keeps its values and the distances between its own labels.
    [start_times] is moved as a whole so that its earliest entry is at
    [A]. *)
Theorem anchored_shift_device_A {V} A (self self' : EmpaticaReader V) :
  timeshift (ToTimestamp A) self = (self', Return tt) →
  table_translated (ACC self) (ACC self')
  ∧ table_translated (BVP self) (BVP self')
  ∧ table_translated (EDA self) (EDA self')
  ∧ table_translated (HR self) (HR self')
  ∧ table_translated (TEMP self) (TEMP self')
  ∧ (∀ j, data self = Some j →
          ∃ j', data self' = Some j' ∧ joined_columns j' = joined_columns j
                ∧ translated (joined_index j) (joined_index j'))
  ∧ (∀ tg, tags self = Some tg →
           ∃ tg', tags self' = Some tg' ∧ translated tg tg')
  ∧ (∃ name m,
        start_times self !! name = Some m
        ∧ (∀ name' t, start_times self !! name' = Some t → m ≤ t)
        ∧ start_times self' = (λ t, t + (A - m)) <$> start_times self).
Proof. apply anchored_tables. Qed.

Lemma anchored_shift_device_A_session :
  let A := 1500000000 * NS_PER_SEC in
  let self := Examples.session_reader in
  let self' := (timeshift (ToTimestamp A) self).1 in
  timeshift (ToTimestamp A) self = (self', Return tt) ∧
  table_translated (ACC self) (ACC self')
  ∧ table_translated (BVP self) (BVP self')
  ∧ table_translated (EDA self) (EDA self')
  ∧ table_translated (HR self) (HR self')
  ∧ table_translated (TEMP self) (TEMP self')
  ∧ (∀ j, data self = Some j →
          ∃ j', data self' = Some j' ∧ joined_columns j' = joined_columns j
                ∧ translated (joined_index j) (joined_index j'))
  ∧ (∀ tg, tags self = Some tg →
           ∃ tg', tags self' = Some tg' ∧ translated tg tg')
  ∧ (∃ name m,
        start_times self !! name = Some m
        ∧ (∀ name' t, start_times self !! name' = Some t → m ≤ t)
        ∧ start_times self' = (λ t, t + (A - m)) <$> start_times self).
Proof.
  cbv zeta.
  assert (Hrun : timeshift (ToTimestamp (1500000000 * NS_PER_SEC)) Examples.session_reader
                 = ((timeshift (ToTimestamp (1500000000 * NS_PER_SEC))
                       Examples.session_reader).1, Return tt)).
  { vm_compute. reflexivity. }
  split; [exact Hrun|].
  exact (anchored_shift_device_A _ _ _ Hrun).
Defined.

End EmpaticaShifts.
Module EmpaticaJoin.
Import Clock Invariants Empatica EmpaticaFacts EmpaticaMore EmpaticaShifts.

(** *** The join and [timeshift] by a duration *)

Lemma translate_app d l1 l2 : translate d (l1 ++ l2) = translate d l1 ++ translate d l2.
Proof. apply fmap_app. Qed.

Lemma translate_concat d (ls : list (list Z)) :
  concat (translate d <$> ls) = translate d (concat ls).
Proof.
  induction ls as [|l ls IH]; [done|].
  rewrite fmap_cons. cbn [concat]. by rewrite IH, translate_app.
Qed.

Lemma translate_cons d t l : translate d (t :: l) = (t + d) :: translate d l.
Proof. done. Qed.

Lemma filter_translate d t k :
  filter (λ u, u ≠ t + d) (translate d k) = translate d (filter (λ u, u ≠ t) k).
Proof.
  induction k as [|u k IH]; [done|]. rewrite translate_cons.
  destruct (decide (u = t)) as [->|Hne].
  - rewrite (filter_cons_False (λ v, v ≠ t + d)) by (intros H; by apply H).
    by rewrite (filter_cons_False (λ v, v ≠ t)) by (intros H; by apply H).
  - rewrite (filter_cons_True (λ v, v ≠ t + d)) by lia.
    rewrite (filter_cons_True (λ v, v ≠ t)) by done. by rewrite translate_cons, IH.
Qed.

Lemma drop_duplicates_translate d l :
  drop_duplicates (translate d l) = translate d (drop_duplicates l).
Proof.
  induction l as [|t l IH]; [done|]. rewrite translate_cons.
  cbn [drop_duplicates]. by rewrite IH, translate_cons, filter_translate.
Qed.

Lemma sort_values_translate d l :
  sort_values (translate d l) = translate d (sort_values l).
Proof.
  unfold sort_values. apply (Sorted_unique Z.le).
  - apply Sorted_merge_sort; apply _.
  - apply (Sorted_fmap _ Z.le); [intros; lia|]. apply Sorted_merge_sort; apply _.
  - rewrite merge_sort_Permutation. unfold translate.
    by rewrite (merge_sort_Permutation Z.le l).
Qed.

Section Scatter.
Context {V : Type}.

Lemma found_value {A} (o : option (nat * (Z * A))) :
  (λ found, found.2.2) <$> (prod_map S id <$> o) = (λ found, found.2.2) <$> o.
Proof. by destruct o as [[k [a b]]|]. Qed.

Lemma at_label_translate d t (idx : list Z) (vals : list (cell V)) :
  at_label (t + d) (mkTable (translate d idx) vals) = at_label t (mkTable idx vals).
Proof.
  unfold at_label. cbn [index values]. revert vals.
  induction idx as [|i idx IH]; intros [|v vals]; try done.
  rewrite translate_cons. cbn -[translate].
  destruct (decide (i + d = t + d)) as [H1|H1], (decide (i = t)) as [H2|H2];
    try lia; [done|].
  rewrite !found_value. apply IH.
Qed.

Lemma scatter_translate d idx (s : Table (cell V)) :
  scatter (translate d idx) (reindex (translate d) s) = scatter idx s.
Proof.
  unfold scatter. change (translate d idx) with ((λ t, t + d) <$> idx).
  rewrite <-list_fmap_compose.
  apply list_fmap_ext. intros _ t _. destruct s as [i v].
  unfold compose, reindex. cbn [index values]. by rewrite at_label_translate.
Qed.

Lemma join_translate d (self : EmpaticaReader V) :
  _get_joined_dataframe (with_dataframes (translate d) self)
  = reindex_joined (translate d) <$> _get_joined_dataframe self.
Proof.
  destruct self as [st acc bvp eda hr temp ibi tg dt].
  unfold _get_joined_dataframe, with_dataframes.
  cbn [ACC BVP EDA HR TEMP].
  assert (Hdfs :
    omap id [index <$> (reindex (translate d) <$> acc);
             index <$> (reindex (translate d) <$> bvp);
             index <$> (reindex (translate d) <$> eda);
             index <$> (reindex (translate d) <$> hr);
             index <$> (reindex (translate d) <$> temp)]
    = translate d <$> omap id [index <$> acc; index <$> bvp; index <$> eda;
                               index <$> hr; index <$> temp]).
  { by destruct acc, bvp, eda, hr, temp. }
  rewrite Hdfs. clear Hdfs.
  set (dfs := omap id _). clearbody dfs. destruct dfs as [|i0 dfs]; [done|].
  rewrite fmap_cons. cbn [fmap option_fmap option_map reindex_joined joined_index
                          ACC_X ACC_Y ACC_Z col_BVP col_EDA col_HR col_TEMP].
  rewrite <-fmap_cons, translate_concat, drop_duplicates_translate, sort_values_translate.
  destruct acc as [[ai av]|], bvp as [[bi bv]|], eda as [[ei ev]|], hr as [[hi hv]|],
    temp as [[ti tv]|];
    cbn [fmap option_fmap option_map reindex_joined joined_index
         ACC_X ACC_Y ACC_Z col_BVP col_EDA col_HR col_TEMP];
    unfold reindex_joined;
    cbn [joined_index ACC_X ACC_Y ACC_Z col_BVP col_EDA col_HR col_TEMP];
    f_equal; f_equal; f_equal;
    apply (scatter_translate d _ (mkTable _ _)).
Qed.

Lemma relative_shift_join d (self self' : EmpaticaReader V) o :
  data self = _get_joined_dataframe self →
  timeshift (ByTimedelta d) self = (self', o) →
  data self' = _get_joined_dataframe self'.
Proof.
  intros Hdata. rewrite relative_timeshift. intros [= <- <-].
  transitivity (reindex_joined (translate d) <$> data self); [by destruct self|].
  rewrite Hdata, <-join_translate. by destruct self.
Qed.

End Scatter.

(** X22.  A shift by a duration keeps the joined table the join of the
    signal tables: where [data] was what [_get_joined_dataframe] gives for
    the signals before the shift, as it is after [__init__], it is what
    [_get_joined_dataframe] gives for the shifted signals after it. *)
Theorem relative_shift_keeps_join {V} d (self self' : EmpaticaReader V) o :
  data self = _get_joined_dataframe self →
  timeshift (ByTimedelta d) self = (self', o) →
  data self' = _get_joined_dataframe self'.
Proof. apply relative_shift_join. Qed.

Lemma relative_shift_keeps_join_session :
  let run := timeshift (ByTimedelta (- (400 * NS_PER_DAY))) Examples.session_reader in
  data Examples.session_reader = _get_joined_dataframe Examples.session_reader ∧
  run = (run.1, run.2) ∧
  data run.1 = _get_joined_dataframe run.1.
Proof.
  cbv zeta. split; [reflexivity|]. split; [reflexivity|].
  apply (relative_shift_keeps_join (- (400 * NS_PER_DAY)) Examples.session_reader
           (timeshift (ByTimedelta (- (400 * NS_PER_DAY))) Examples.session_reader).1
           (timeshift (ByTimedelta (- (400 * NS_PER_DAY))) Examples.session_reader).2);
    reflexivity.
Defined.

(** *** Undoing a shift, and what no shift touches *)

Section Undo.
Context {V : Type}.
Implicit Types (self : EmpaticaReader V).

Lemma translate_zero l : translate 0 l = l.
Proof.
  unfold translate. rewrite <-(list_fmap_id l) at 2. apply list_fmap_ext.
  intros; cbn; lia.
Qed.

Lemma relative_shift_zero self : timeshift (ByTimedelta 0) self = (self, Return tt).
Proof.
  rewrite relative_timeshift. f_equal.
  destruct self as [st acc bvp eda hr temp ibi tg dt].
  unfold with_dataframes, with_tags, with_start_times, reindex, reindex_joined.
  cbn -[translate]. f_equal.
  - rewrite <-(map_fmap_id st) at 2. apply map_fmap_ext. intros; cbn; lia.
  - destruct acc as [[]|]; cbn -[translate]; by rewrite ?translate_zero.
  - destruct bvp as [[]|]; cbn -[translate]; by rewrite ?translate_zero.
  - destruct eda as [[]|]; cbn -[translate]; by rewrite ?translate_zero.
  - destruct hr as [[]|]; cbn -[translate]; by rewrite ?translate_zero.
  - destruct temp as [[]|]; cbn -[translate]; by rewrite ?translate_zero.
  - destruct tg; cbn -[translate]; by rewrite ?translate_zero.
  - destruct dt as [[]|]; cbn -[translate]; by rewrite ?translate_zero.
Qed.

Lemma relative_shift_there_and_back d self :
  (timeshift (ByTimedelta d) ;; timeshift (ByTimedelta (- d))) self = (self, Return tt).
Proof.
  rewrite relative_timeshift_twice. replace (d + - d) with 0 by lia.
  apply relative_shift_zero.
Qed.

Lemma length_anchor A l : length (anchor A l) = length l.
Proof. unfold anchor. destruct (minimum l); by rewrite ?length_fmap. Qed.

Lemma length_translate d l : length (translate d l) = length l.
Proof. unfold translate. by rewrite length_fmap. Qed.

Lemma values_reindexed {A} (g : list Z → list Z) (o : option (Table A)) :
  values <$> (reindex g <$> o) = values <$> o.
Proof. by destruct o. Qed.

Lemma length_reindexed {A} (g : list Z → list Z) (o : option (Table A)) :
  (∀ l, length (g l) = length l) →
  (length ∘ index) <$> (reindex g <$> o) = (length ∘ index) <$> o.
Proof. intros Hg. destruct o; cbn; [|done]. by rewrite Hg. Qed.

(** What a table or the joined table shows but for the labels themselves. *)
Lemma shape_kept (g h : list Z → list Z) (f : gmap string Z → gmap string Z) self :
  (∀ l, length (g l) = length l) →
  let self' := with_dataframes g (with_tags h (with_start_times f self)) in
  values <$> ACC self' = values <$> ACC self
  ∧ values <$> BVP self' = values <$> BVP self
  ∧ values <$> EDA self' = values <$> EDA self
  ∧ values <$> HR self' = values <$> HR self
  ∧ values <$> TEMP self' = values <$> TEMP self
  ∧ joined_columns <$> data self' = joined_columns <$> data self
  ∧ (length ∘ index) <$> ACC self' = (length ∘ index) <$> ACC self
  ∧ (length ∘ index) <$> BVP self' = (length ∘ index) <$> BVP self
  ∧ (length ∘ index) <$> EDA self' = (length ∘ index) <$> EDA self
  ∧ (length ∘ index) <$> HR self' = (length ∘ index) <$> HR self
  ∧ (length ∘ index) <$> TEMP self' = (length ∘ index) <$> TEMP self
  ∧ (length ∘ joined_index) <$> data self' = (length ∘ joined_index) <$> data self
  ∧ values <$> IBI self' = values <$> IBI self
  ∧ (length ∘ index) <$> IBI self' = (length ∘ index) <$> IBI self.
Proof.
  intros Hg. destruct self as [st acc bvp eda hr temp ibi tg dt].
  cbn [with_dataframes with_tags with_start_times start_times ACC BVP EDA HR TEMP IBI
       tags data].
  repeat (split; [apply values_reindexed|]).
  split; [by destruct dt|].
  repeat (split; [by apply length_reindexed|]).
  split; [|done]. destruct dt; cbn; [|done]. by rewrite Hg.
Qed.

Lemma timeshift_shape shift self self' o :
  timeshift shift self = (self', o) →
  values <$> ACC self' = values <$> ACC self
  ∧ values <$> BVP self' = values <$> BVP self
  ∧ values <$> EDA self' = values <$> EDA self
  ∧ values <$> HR self' = values <$> HR self
  ∧ values <$> TEMP self' = values <$> TEMP self
  ∧ joined_columns <$> data self' = joined_columns <$> data self
  ∧ (length ∘ index) <$> ACC self' = (length ∘ index) <$> ACC self
  ∧ (length ∘ index) <$> BVP self' = (length ∘ index) <$> BVP self
  ∧ (length ∘ index) <$> EDA self' = (length ∘ index) <$> EDA self
  ∧ (length ∘ index) <$> HR self' = (length ∘ index) <$> HR self
  ∧ (length ∘ index) <$> TEMP self' = (length ∘ index) <$> TEMP self
  ∧ (length ∘ joined_index) <$> data self' = (length ∘ joined_index) <$> data self
  ∧ values <$> IBI self' = values <$> IBI self
  ∧ (length ∘ index) <$> IBI self' = (length ∘ index) <$> IBI self.
Proof.
  destruct shift as [drawn|A|d|].
  - change (timeshift (Random drawn) self) with (timeshift (ByTimedelta drawn) self).
    rewrite relative_timeshift. intros [= <- <-].
    apply (shape_kept (translate drawn) _ _ _ (length_translate drawn)).
  - destruct (decide (start_times self = ∅)) as [Hst|Hst].
    + rewrite anchored_shift_raises by done. intros [= <- <-]. repeat split; done.
    + destruct (anchored_shift_returns A self Hst) as (m & _ & ->). intros [= <- <-].
      apply (shape_kept (anchor A) _ _ _ (length_anchor A)).
  - rewrite relative_timeshift. intros [= <- <-].
    apply (shape_kept (translate d) _ _ _ (length_translate d)).
  - intros [= <- <-]. repeat split; done.
Qed.

End Undo.

Lemma sum_representable d t :
  within_a_century d → within_a_century t → representable (t + d).
Proof.
  unfold representable, within_a_century, CENTURY.
  cbv [NS_PER_DAY NS_PER_HOUR NS_PER_MIN NS_PER_SEC NS_PER_US]. lia.
Qed.

Lemma translated_representable d (l : list Z) :
  within_a_century d → Forall within_a_century l → Forall representable (translate d l).
Proof.
  intros Hd Hl. unfold translate. apply Forall_fmap. eapply Forall_impl; [exact Hl|].
  intros t Ht. by apply sum_representable.
Qed.

Lemma relative_shift_representable {V} d (self : EmpaticaReader V) :
  within_a_century d → all_instants within_a_century self →
  all_instants representable
    (with_dataframes (translate d)
       (with_tags (translate d)
          (with_start_times (fmap (λ start_time, start_time + d)) self))).
Proof.
  intros Hd (Hst & Htags & Hacc & Hbvp & Heda & Hhr & Htemp & Hdata).
  destruct self as [st acc bvp eda hr temp ibi tg dt]. unfold all_instants.
  cbn [start_times tags ACC BVP EDA HR TEMP data with_dataframes with_tags
       with_start_times] in *.
  split.
  { apply map_Forall_fmap. eapply map_Forall_impl; [exact Hst|].
    intros k t Ht. by apply sum_representable. }
  split; [destruct tg; cbn in *; [by apply translated_representable|constructor]|].
  split; [destruct acc; cbn in *; [by apply translated_representable|constructor]|].
  split; [destruct bvp; cbn in *; [by apply translated_representable|constructor]|].
  split; [destruct eda; cbn in *; [by apply translated_representable|constructor]|].
  split; [destruct hr; cbn in *; [by apply translated_representable|constructor]|].
  split; [destruct temp; cbn in *; [by apply translated_representable|constructor]|].
  destruct dt; cbn in *; [by apply translated_representable|constructor].
Qed.

(** X23.  On device A, for a reader whose instants are within a century of
    the epoch and a duration [d] of at most a century, the shift by [d]
    returns with instants that a [pd.Timestamp] holds, and the shift by
    [-d] after it gives the reader back as it was. *)
Theorem relative_shift_undone_device_A {V} d (self : EmpaticaReader V) :
  within_a_century d →
  all_instants within_a_century self →
  ∃ shifted,
    timeshift (ByTimedelta d) self = (shifted, Return tt)
    ∧ all_instants representable shifted
    ∧ (timeshift (ByTimedelta d) ;; timeshift (ByTimedelta (- d))) self = (self, Return tt).
Proof.
  intros Hd Hrange. eexists. split; [apply relative_timeshift|].
  split; [by apply relative_shift_representable|apply relative_shift_there_and_back].
Qed.

Lemma relative_shift_undone_device_A_session :
  let d := - (400 * NS_PER_DAY) in
  within_a_century d ∧
  all_instants within_a_century Examples.session_reader ∧
  ∃ shifted,
    timeshift (ByTimedelta d) Examples.session_reader = (shifted, Return tt)
    ∧ all_instants representable shifted
    ∧ (timeshift (ByTimedelta d) ;; timeshift (ByTimedelta (- d))) Examples.session_reader
      = (Examples.session_reader, Return tt).
Proof.
  cbv zeta.
  assert (Hd : within_a_century (- (400 * NS_PER_DAY))).
  { unfold within_a_century, CENTURY.
    cbv [NS_PER_DAY NS_PER_HOUR NS_PER_MIN NS_PER_SEC NS_PER_US]. lia. }
  assert (Hrange : all_instants within_a_century Examples.session_reader).
  { unfold all_instants, within_a_century.
    split; [by apply (bool_decide_unpack _); vm_compute|].
    repeat split; by apply (bool_decide_unpack _); vm_compute. }
  split; [exact Hd|]. split; [exact Hrange|].
  exact (relative_shift_undone_device_A _ Examples.session_reader Hd Hrange).
Defined.

(** X24.  No [timeshift] of device A, in any mode and whether it returns or
    raises, touches a sample: the values of the five signal tables and of
    the IBI table and the columns of the joined table stay as they are, and
    every table keeps its number of labels. *)
Theorem timeshift_keeps_samples {V} shift (self self' : EmpaticaReader V) o :
  timeshift shift self = (self', o) →
  values <$> ACC self' = values <$> ACC self
  ∧ values <$> BVP self' = values <$> BVP self
  ∧ values <$> EDA self' = values <$> EDA self
  ∧ values <$> HR self' = values <$> HR self
  ∧ values <$> TEMP self' = values <$> TEMP self
  ∧ joined_columns <$> data self' = joined_columns <$> data self
  ∧ (length ∘ index) <$> ACC self' = (length ∘ index) <$> ACC self
  ∧ (length ∘ index) <$> BVP self' = (length ∘ index) <$> BVP self
  ∧ (length ∘ index) <$> EDA self' = (length ∘ index) <$> EDA self
  ∧ (length ∘ index) <$> HR self' = (length ∘ index) <$> HR self
  ∧ (length ∘ index) <$> TEMP self' = (length ∘ index) <$> TEMP self
  ∧ (length ∘ joined_index) <$> data self' = (length ∘ joined_index) <$> data self
  ∧ values <$> IBI self' = values <$> IBI self
  ∧ (length ∘ index) <$> IBI self' = (length ∘ index) <$> IBI self.
Proof. apply timeshift_shape. Qed.

Lemma timeshift_keeps_samples_session :
  let shift := ToTimestamp (1500000000 * NS_PER_SEC) in
  let self := Examples.session_reader in
  let self' := (timeshift shift self).1 in
  timeshift shift self = (self', (timeshift shift self).2) ∧
  values <$> ACC self' = values <$> ACC self
  ∧ values <$> BVP self' = values <$> BVP self
  ∧ values <$> EDA self' = values <$> EDA self
  ∧ values <$> HR self' = values <$> HR self
  ∧ values <$> TEMP self' = values <$> TEMP self
  ∧ joined_columns <$> data self' = joined_columns <$> data self
  ∧ (length ∘ index) <$> ACC self' = (length ∘ index) <$> ACC self
  ∧ (length ∘ index) <$> BVP self' = (length ∘ index) <$> BVP self
  ∧ (length ∘ index) <$> EDA self' = (length ∘ index) <$> EDA self
  ∧ (length ∘ index) <$> HR self' = (length ∘ index) <$> HR self
  ∧ (length ∘ index) <$> TEMP self' = (length ∘ index) <$> TEMP self
  ∧ (length ∘ joined_index) <$> data self' = (length ∘ joined_index) <$> data self
  ∧ values <$> IBI self' = values <$> IBI self
  ∧ (length ∘ index) <$> IBI self' = (length ∘ index) <$> IBI self.
Proof.
  cbv zeta.
  assert (Hrun : timeshift (ToTimestamp (1500000000 * NS_PER_SEC)) Examples.session_reader
                 = ((timeshift (ToTimestamp (1500000000 * NS_PER_SEC))
                       Examples.session_reader).1,
                    (timeshift (ToTimestamp (1500000000 * NS_PER_SEC))
                       Examples.session_reader).2)).
  { by destruct (timeshift _ _). }
  split; [exact Hrun|].
  exact (timeshift_keeps_samples _ _ _ _ Hrun).
Defined.

End EmpaticaJoin.
